(** * Investment advisory application: portfolio controller, transaction
      route, middleware, risk questionnaire and dashboard overview

    A shallow embedding of
      - backend/src/controllers/portfolioController.ts (handlers over the
        Prisma store),
      - backend/src/routes/portfolios.ts (validation chain and routing),
      - backend/src/middleware (error handler, authentication) and the token
        generators of authController.ts,
      - the risk questionnaire component (calculateRiskProfile and the
        handlers of its buttons),
      - the portfolio overview component with the chart and the metrics panel
        it renders (mockPortfolio, mockMetrics, mockData, PerformanceMetrics),
    followed by the properties the written specification states about them
    and further properties of the same code.

    Conventions.  A JavaScript [number] is an exact rational ([Q]): rounding
    is not modelled, and the one place where the source can divide by zero
    (the risk score) goes through [jsnum], which keeps NaN and the two
    infinities apart.  A table with a primary key is a finite map from the
    key to the row; the transaction table, which the controller only appends
    to and scans, is a list in insertion order.  Values the database
    generates (row ids, timestamps) come from an environment record.
    Failures of the database client itself are not modelled: a handler either
    answers or throws one of its own errors. *)

From Stdlib Require Import QArith Qabs Qminmax Lqa.
From stdpp Require Import gmap strings list sorting.

#[local] Set Warnings "-clear-no-such-hyp".

Local Open Scope Q_scope.
Local Open Scope string_scope.
Local Open Scope list_scope.

(** ** Rows (backend/src/types/index.ts and the columns the controller writes) *)

Module Portfolio.
Record t := mk {
  id : string;
  userId : string;
  name : string;
  createdAt : nat
}.
End Portfolio.

Module Position.
Record t := mk {
  id : string;
  portfolioId : string;
  symbol : string;
  shares : Q;
  averagePrice : Q;
  currentPrice : Q;
  marketValue : Q;
  costBasis : Q;
  gain : Q;
  gainPercent : Q;
  weight : Q
}.
End Position.

Module Transaction.
Record t := mk {
  id : string;
  portfolioId : string;
  userId : string;
  symbol : string;
  type : string;
  shares : Q;
  price : Q;
  total : Q;
  fees : Q;
  notes : option string;
  date : nat
}.
End Transaction.

(** ** Request bodies, as the handlers destructure them *)

Module PositionBody.
Record t := mk {
  symbol : string;
  shares : Q;
  averagePrice : Q
}.
End PositionBody.

Module TransactionBody.
Record t := mk {
  symbol : string;
  type : string;
  shares : Q;
  price : Q;
  fees : option Q;      (* [fees = 0] when absent *)
  notes : option string
}.
End TransactionBody.

(** ** The store behind the Prisma client *)

Record Store := mkStore {
  portfolios : gmap string Portfolio.t;               (* key: id *)
  positions : gmap (string * string) Position.t;      (* key: portfolioId_symbol *)
  transactions : list Transaction.t                   (* insertion order *)
}.

Definition emptyStore : Store := mkStore ∅ ∅ [].

(** What the database supplies on a create: the new row's id and the clock. *)
Record Env := mkEnv {
  newId : string;
  now : nat
}.

(** ** Responses *)

(** Modelled from the spec: the error kinds of its section 7.  No source
    file declares them; the controller itself only throws [Error(message)]. *)
Inductive ErrorKind :=
  | InsufficientSharesError
  | InsufficientDataError
  | InvalidTransactionError.

Inductive Data :=
  | DNull
  | DPortfolioList (l : list (Portfolio.t * list Position.t * (nat * nat)))
  | DPortfolioDetail (p : Portfolio.t) (ps : list Position.t) (ts : list Transaction.t)
  | DPortfolio (p : option Portfolio.t)
  | DPosition (p : option Position.t)
  | DPositionList (l : list Position.t)
  | DTransaction (t : Transaction.t)
  | DTransactionList (l : list Transaction.t).

Record ApiResponse := mkResponse {
  success : bool;
  data : Data;
  message : string
}.

Inductive Outcome :=
  | Sent (status : nat) (response : ApiResponse)   (* res.status(n).json(response) *)
  | Thrown (msg : string)                          (* throw new Error(msg) *)
  | Rejected (e : ErrorKind).                      (* stopped by a middleware *)

(** ** express-validator rules used by the routes *)

Module Validator.

Definition is_space (c : Ascii.ascii) : bool :=
  match Ascii.nat_of_ascii c with
  | 32 | 9 | 10 | 11 | 12 | 13 => true
  | _ => false
  end%nat.

Fixpoint dropSpaces (s : string) : string :=
  match s with
  | EmptyString => EmptyString
  | String c s' => if is_space c then dropSpaces s' else s
  end.

(** [trim()]: white space removed at both ends. *)
Definition trim (s : string) : string :=
  String.rev (dropSpaces (String.rev (dropSpaces s))).

(** [isLength({ min, max })] *)
Definition isLength (min max : nat) (s : string) : bool :=
  (min <=? String.length s)%nat && (String.length s <=? max)%nat.

(** [isIn(values)] *)
Definition isIn (values : list string) (s : string) : bool :=
  existsb (String.eqb s) values.

(** [isFloat({ min })] on a numeric body field. *)
Definition isFloat (min : Q) (x : Q) : bool := Qle_bool min x.

End Validator.

(** ** Queries of the Prisma client the controller uses *)

Definition owner (db : Store) (pid : string) : option string :=
  Portfolio.userId <$> portfolios db !! pid.

(** [prisma.portfolio.findFirst({ where: { id, userId } })] *)
Definition portfolio_findFirst (id user : string) (db : Store) : option Portfolio.t :=
  match portfolios db !! id with
  | Some p => if decide (Portfolio.userId p = user) then Some p else None
  | None => None
  end.

(** ** portfolioController.ts *)

Definition addTransaction (env : Env) (user id : string)
    (body : TransactionBody.t) (db : Store) : Store * Outcome :=
  let symbol := TransactionBody.symbol body in
  let type := TransactionBody.type body in
  let shares := TransactionBody.shares body in
  let price := TransactionBody.price body in
  let fees := default 0 (TransactionBody.fees body) in
  let notes := TransactionBody.notes body in
  (* Verify portfolio belongs to user *)
  match portfolio_findFirst id user db with
  | None => (db, Thrown "Portfolio not found")
  | Some _ =>
      let total := shares * price + fees in
      let transaction :=
        Transaction.mk (newId env) id user symbol type shares price total fees
                       notes (now env) in
      (mkStore (portfolios db) (positions db) (transactions db ++ [transaction]),
       Sent 201 (mkResponse true (DTransaction transaction)
                            "Transaction added successfully"))
  end.

(** ** routes/portfolios.ts *)

(** [transactionValidation]: the messages of the rules that fail. *)
Definition transactionValidation (body : TransactionBody.t) : list string :=
  (if Validator.isLength 1 10 (Validator.trim (TransactionBody.symbol body))
   then [] else ["Symbol is required"]) ++
  (if Validator.isIn ["BUY"; "SELL"] (TransactionBody.type body)
   then [] else ["Transaction type must be BUY or SELL"]) ++
  (if Validator.isFloat (1 # 10000) (TransactionBody.shares body)
   then [] else ["Shares must be a positive number"]) ++
  (if Validator.isFloat (1 # 100) (TransactionBody.price body)
   then [] else ["Price must be a positive number"]) ++
  (match TransactionBody.fees body with
   | None => []                                        (* optional() *)
   | Some f => if Validator.isFloat 0 f
               then [] else ["Fees must be a non-negative number"]
   end).

(** The body after the sanitizers of the chain ([trim()] on the symbol). *)
Definition transactionSanitized (body : TransactionBody.t) : TransactionBody.t :=
  TransactionBody.mk (Validator.trim (TransactionBody.symbol body))
    (TransactionBody.type body) (TransactionBody.shares body)
    (TransactionBody.price body) (TransactionBody.fees body)
    (TransactionBody.notes body).

(** Modelled from the spec: the middleware [validateRequest]
    ('@/middleware/validateRequest') is imported by the routes but its file is
    not among the sources.  Following the spec (section 7), a request with a
    failed rule is rejected with [InvalidTransactionError] before the handler
    runs, and the store is not touched. *)
Definition validateRequest (errors : list string) (next : Store -> Store * Outcome)
    (db : Store) : Store * Outcome :=
  match errors with
  | [] => next db
  | _ :: _ => (db, Rejected InvalidTransactionError)
  end.

(** [router.post('/:id/transactions', transactionValidation, validateRequest,
    addTransaction)], for the user that [authenticate] put on the request. *)
Definition post_transactions (env : Env) (user id : string)
    (body : TransactionBody.t) (db : Store) : Store * Outcome :=
  validateRequest (transactionValidation body)
    (addTransaction env user id (transactionSanitized body)) db.

(** *** Orderings of the [orderBy] clauses *)

Definition createdAt_desc : relation Portfolio.t :=
  λ a b, (Portfolio.createdAt b ≤ Portfolio.createdAt a)%nat.

Definition marketValue_desc : relation Position.t :=
  λ a b, Position.marketValue b <= Position.marketValue a.

Definition date_desc : relation Transaction.t :=
  λ a b, (Transaction.date b ≤ Transaction.date a)%nat.

#[global] Instance createdAt_desc_dec : RelDecision createdAt_desc.
Proof. intros a b. unfold createdAt_desc. apply _. Defined.

#[global] Instance marketValue_desc_dec : RelDecision marketValue_desc.
Proof. intros a b. unfold marketValue_desc, Qle. apply _. Defined.

#[global] Instance date_desc_dec : RelDecision date_desc.
Proof. intros a b. unfold date_desc. apply _. Defined.

(** *** Where-clauses *)

(** [where: { userId }] on the portfolio table. *)
Definition ownedBy (user : string) (kv : string * Portfolio.t) : Prop :=
  Portfolio.userId kv.2 = user.

(** [where: { portfolioId: id }] on the position table (the key repeats the
    row's [portfolioId] and [symbol]). *)
Definition inPortfolio (id : string) (kv : string * string * Position.t) : Prop :=
  kv.1.1 = id.

(** [where: { portfolio: { userId } }]: the relation filter goes through the
    row's portfolio. *)
Definition positionOf (db : Store) (user : string)
    (kv : string * string * Position.t) : Prop :=
  owner db kv.1.1 = Some user.

Definition transactionOf (db : Store) (user : string) (t : Transaction.t) : Prop :=
  owner db (Transaction.portfolioId t) = Some user.

#[global] Instance ownedBy_dec user kv : Decision (ownedBy user kv).
Proof. unfold ownedBy. apply _. Defined.

#[global] Instance inPortfolio_dec id kv : Decision (inPortfolio id kv).
Proof. unfold inPortfolio. apply _. Defined.

#[global] Instance positionOf_dec db user kv : Decision (positionOf db user kv).
Proof. unfold positionOf. apply _. Defined.

#[global] Instance transactionOf_dec db user t : Decision (transactionOf db user t).
Proof. unfold transactionOf. apply _. Defined.

(** The rows of a table, as a query returns them. *)
Definition rows {K A} `{Countable K} (m : gmap K A) : list A :=
  (map_to_list m).*2.

(** [prisma.portfolio.findMany({ where: { userId }, orderBy: { createdAt: 'desc' } })] *)
Definition portfolio_findMany (user : string) (db : Store) : list Portfolio.t :=
  merge_sort createdAt_desc (rows (filter (ownedBy user) (portfolios db))).

(** [include: { positions: true }] *)
Definition positions_include (id : string) (db : Store) : list Position.t :=
  rows (filter (inPortfolio id) (positions db)).

(** The transactions of one portfolio. *)
Definition transactions_include (id : string) (db : Store) : list Transaction.t :=
  filter (λ t, Transaction.portfolioId t = id) (transactions db).

(** [prisma.position.findMany({ where: { portfolioId: id, portfolio: { userId } } })],
    before ordering: as a table. *)
Definition position_where (id user : string) (db : Store)
    : gmap (string * string) Position.t :=
  filter (inPortfolio id) (filter (positionOf db user) (positions db)).

(** [prisma.transaction.findMany({ where: { portfolioId: id, portfolio: { userId } } })],
    before ordering. *)
Definition transaction_where (id user : string) (db : Store) : list Transaction.t :=
  filter (λ t, Transaction.portfolioId t = id)
         (filter (transactionOf db user) (transactions db)).

(** Modelled from the spec: the Prisma schema (its [onDelete] rules) is not
    among the sources; following the spec (section 3), deleting a portfolio
    cascades to its positions and transactions. *)
Definition portfolio_delete (id : string) (db : Store) : Store :=
  mkStore (delete id (portfolios db))
          (filter (λ kv, ¬ inPortfolio id kv) (positions db))
          (filter (λ t, Transaction.portfolioId t ≠ id) (transactions db)).

(** *** Handlers *)

Definition getPortfolios (user : string) (db : Store) : Store * Outcome :=
  let portfolios :=
    (λ p, let ps := positions_include (Portfolio.id p) db in
          (p, ps, (length ps, length (transactions_include (Portfolio.id p) db))))
    <$> portfolio_findMany user db in
  (db, Sent 200 (mkResponse true (DPortfolioList portfolios)
                            "Portfolios retrieved successfully")).

Definition getPortfolio (user id : string) (db : Store) : Store * Outcome :=
  match portfolio_findFirst id user db with
  | None => (db, Thrown "Portfolio not found")
  | Some portfolio =>
      (db, Sent 200 (mkResponse true
             (DPortfolioDetail portfolio (positions_include id db)
                (take 10 (merge_sort date_desc (transactions_include id db))))
             "Portfolio retrieved successfully"))
  end.

Definition createPortfolio (env : Env) (user name : string) (db : Store)
    : Store * Outcome :=
  match portfolios db !! newId env with
  | Some _ => (db, Thrown "Unique constraint failed")   (* never with a fresh id *)
  | None =>
      let portfolio := Portfolio.mk (newId env) user name (now env) in
      (mkStore (<[newId env := portfolio]> (portfolios db)) (positions db)
               (transactions db),
       Sent 201 (mkResponse true (DPortfolio (Some portfolio))
                            "Portfolio created successfully"))
  end.

Definition updatePortfolio (user id name : string) (db : Store) : Store * Outcome :=
  (* updateMany({ where: { id, userId }, data: { name } }) *)
  let '(count, db') :=
    match portfolio_findFirst id user db with
    | None => (0%nat, db)
    | Some p =>
        (1%nat,
         mkStore (<[id := Portfolio.mk (Portfolio.id p) (Portfolio.userId p) name
                            (Portfolio.createdAt p)]> (portfolios db))
                 (positions db) (transactions db))
    end in
  if decide (count = 0%nat) then (db', Thrown "Portfolio not found")
  else
    (* findUnique({ where: { id } }) *)
    let updatedPortfolio := portfolios db' !! id in
    (db', Sent 200 (mkResponse true (DPortfolio updatedPortfolio)
                               "Portfolio updated successfully")).

Definition deletePortfolio (user id : string) (db : Store) : Store * Outcome :=
  (* deleteMany({ where: { id, userId } }) *)
  let '(count, db') :=
    match portfolio_findFirst id user db with
    | None => (0%nat, db)
    | Some _ => (1%nat, portfolio_delete id db)
    end in
  if decide (count = 0%nat) then (db', Thrown "Portfolio not found")
  else (db', Sent 200 (mkResponse true DNull "Portfolio deleted successfully")).

Definition getPositions (user id : string) (db : Store) : Store * Outcome :=
  let positions := merge_sort marketValue_desc (rows (position_where id user db)) in
  (db, Sent 200 (mkResponse true (DPositionList positions)
                            "Positions retrieved successfully")).

Definition addPosition (env : Env) (user id : string) (body : PositionBody.t)
    (db : Store) : Store * Outcome :=
  let symbol := PositionBody.symbol body in
  let shares := PositionBody.shares body in
  let averagePrice := PositionBody.averagePrice body in
  (* Verify portfolio belongs to user *)
  match portfolio_findFirst id user db with
  | None => (db, Thrown "Portfolio not found")
  | Some _ =>
      let position :=
        match positions db !! (id, symbol) with
        | Some p =>
            (* update: shares incremented, averagePrice set to 0 *)
            Position.mk (Position.id p) (Position.portfolioId p) (Position.symbol p)
              (Position.shares p + shares)
              0
              (Position.currentPrice p) (Position.marketValue p)
              (Position.costBasis p) (Position.gain p) (Position.gainPercent p)
              (Position.weight p)
        | None =>
            (* create *)
            Position.mk (newId env) id symbol shares averagePrice
              averagePrice
              (shares * averagePrice)
              (shares * averagePrice)
              0 0 0
        end in
      (mkStore (portfolios db) (<[(id, symbol) := position]> (positions db))
               (transactions db),
       Sent 201 (mkResponse true (DPosition (Some position))
                            "Position added successfully"))
  end.

Definition updatePosition (user id symbol : string) (shares averagePrice : Q)
    (db : Store) : Store * Outcome :=
  (* updateMany({ where: { portfolioId: id, symbol, portfolio: { userId } },
                  data: { shares, averagePrice } }) *)
  let '(count, db') :=
    match position_where id user db !! (id, symbol) with
    | None => (0%nat, db)
    | Some p =>
        (1%nat,
         mkStore (portfolios db)
           (<[(id, symbol) :=
                Position.mk (Position.id p) (Position.portfolioId p)
                  (Position.symbol p) shares averagePrice
                  (Position.currentPrice p) (Position.marketValue p)
                  (Position.costBasis p) (Position.gain p)
                  (Position.gainPercent p) (Position.weight p)]> (positions db))
           (transactions db))
    end in
  if decide (count = 0%nat) then (db', Thrown "Position not found")
  else
    (* findFirst({ where: { portfolioId: id, symbol } }) *)
    let updatedPosition := positions db' !! (id, symbol) in
    (db', Sent 200 (mkResponse true (DPosition updatedPosition)
                               "Position updated successfully")).

Definition removePosition (user id symbol : string) (db : Store) : Store * Outcome :=
  (* deleteMany({ where: { portfolioId: id, symbol, portfolio: { userId } } }) *)
  let '(count, db') :=
    match position_where id user db !! (id, symbol) with
    | None => (0%nat, db)
    | Some _ =>
        (1%nat, mkStore (portfolios db) (delete (id, symbol) (positions db))
                        (transactions db))
    end in
  if decide (count = 0%nat) then (db', Thrown "Position not found")
  else (db', Sent 200 (mkResponse true DNull "Position removed successfully")).

(** [limit] and [offset] are the query parameters after [parseInt], with the
    defaults 50 and 0 of the destructuring. *)
Definition getTransactions (user id : string) (limit offset : option nat)
    (db : Store) : Store * Outcome :=
  let limit := default 50%nat limit in
  let offset := default 0%nat offset in
  let transactions :=
    take limit (drop offset (merge_sort date_desc (transaction_where id user db))) in
  (db, Sent 200 (mkResponse true (DTransactionList transactions)
                            "Transactions retrieved successfully")).

(** The controller as one step function: an authenticated user runs one
    operation against the store. *)
Inductive Op :=
  | GetPortfolios
  | GetPortfolio (id : string)
  | CreatePortfolio (name : string)
  | UpdatePortfolio (id name : string)
  | DeletePortfolio (id : string)
  | GetPositions (id : string)
  | AddPosition (id : string) (body : PositionBody.t)
  | UpdatePosition (id symbol : string) (shares averagePrice : Q)
  | RemovePosition (id symbol : string)
  | GetTransactions (id : string) (limit offset : option nat)
  | AddTransaction (id : string) (body : TransactionBody.t).

Definition handle (env : Env) (user : string) (op : Op) (db : Store)
    : Store * Outcome :=
  match op with
  | GetPortfolios => getPortfolios user db
  | GetPortfolio id => getPortfolio user id db
  | CreatePortfolio name => createPortfolio env user name db
  | UpdatePortfolio id name => updatePortfolio user id name db
  | DeletePortfolio id => deletePortfolio user id db
  | GetPositions id => getPositions user id db
  | AddPosition id body => addPosition env user id body db
  | UpdatePosition id symbol shares averagePrice =>
      updatePosition user id symbol shares averagePrice db
  | RemovePosition id symbol => removePosition user id symbol db
  | GetTransactions id limit offset => getTransactions user id limit offset db
  | AddTransaction id body => addTransaction env user id body db
  end.

(** A sequence of controller calls by possibly different users, each with
    the values the database generates for it. *)
Definition Call : Type := Env * string * Op.

Definition runCalls (calls : list Call) (db : Store) : Store :=
  foldl (λ db c, (handle c.1.1 c.1.2 c.2 db).1) db calls.

(** ** The risk questionnaire (components/dashboard/risk-assessment.tsx) *)

Module RiskAssessment.

Inductive QuestionType := multiple_choice | scale | text.

Record RiskQuestion := mkQuestion {
  id : string;
  question : string;
  type : QuestionType;
  options : option (list string);
  weight : Q;
  category : string
}.

Definition riskQuestions : list RiskQuestion := [
  mkQuestion "1" "What is your primary investment goal?" multiple_choice
    (Some ["Capital preservation"; "Income generation"; "Growth";
           "Aggressive growth"])
    3 "Investment Goals";
  mkQuestion "2" "What is your investment time horizon?" multiple_choice
    (Some ["Less than 1 year"; "1-3 years"; "3-5 years"; "5-10 years";
           "More than 10 years"])
    4 "Time Horizon";
  mkQuestion "3"
    "How would you react to a 20% decline in your portfolio value?"
    multiple_choice
    (Some ["Sell all investments immediately";
           "Sell some investments to reduce risk";
           "Hold and wait for recovery";
           "Buy more while prices are low"])
    5 "Risk Tolerance";
  mkQuestion "4" "What percentage of your income do you invest?"
    multiple_choice
    (Some ["Less than 5%"; "5-10%"; "10-20%"; "20-30%"; "More than 30%"])
    2 "Financial Situation";
  mkQuestion "5" "Rate your investment knowledge (1-10)" scale None
    2 "Knowledge";
  mkQuestion "6" "How important is it to beat the market average?"
    multiple_choice
    (Some ["Not important at all"; "Somewhat important"; "Very important";
           "Extremely important"])
    3 "Performance Expectations"
].

(** An answer is a [string | number]. *)
Inductive Answer := AString (s : string) | ANumber (n : Q).

Inductive ProfileKey := conservative | moderate | aggressive.

(** [Array.prototype.indexOf]: the first index holding a strictly equal
    element, -1 when there is none (a number is never [===] a string). *)
Fixpoint indexOfFrom (i : Z) (l : list string) (x : string) : Z :=
  match l with
  | [] => (-1)%Z
  | y :: l' => if String.eqb y x then i else indexOfFrom (i + 1)%Z l' x
  end.

Definition indexOf (l : list string) (answer : Answer) : Z :=
  match answer with
  | AString s => indexOfFrom 0%Z l s
  | ANumber _ => (-1)%Z
  end.

(** [x || d] for [x : number | undefined]: the right operand is taken only
    when [x] is falsy, that is [undefined] or [0]. *)
Definition orElse (x : option Z) (d : Z) : Z :=
  match x with
  | None => d
  | Some v => if (v =? 0)%Z then d else v
  end.

(** [question.options?.indexOf(answer as string) || 0] *)
Definition optionIndex (q : RiskQuestion) (answer : Answer) : Z :=
  orElse ((λ l, indexOf l answer) <$> options q) 0%Z.

(** [question.options?.length || 10] *)
Definition optionCount (q : RiskQuestion) : Z :=
  orElse ((λ l, Z.of_nat (length l)) <$> options q) 10%Z.

(** What one answered question adds to [totalScore].  [None]: a string
    answer to a scale question, which [*] would coerce to a number; the
    scale buttons only record numbers and the coercion is not modelled. *)
Definition contribution (q : RiskQuestion) (answer : Answer) : option Q :=
  match type q with
  | multiple_choice => Some (inject_Z (optionIndex q answer + 1) * weight q)
  | scale =>
      match answer with
      | ANumber n => Some (n * weight q)
      | AString _ => None
      end
  | text => Some 0
  end.

(** The body of [riskQuestions.forEach], on the pair (totalScore, maxScore). *)
Definition scoreStep (answers : gmap string Answer) (acc : option (Q * Q))
    (q : RiskQuestion) : option (Q * Q) :=
  '(totalScore, maxScore) ← acc;
  match answers !! id q with
  | None => Some (totalScore, maxScore)
  | Some answer =>
      c ← contribution q answer;
      Some (totalScore + c, maxScore + inject_Z (optionCount q) * weight q)
  end.

Definition scores (questions : list RiskQuestion) (answers : gmap string Answer)
    : option (Q * Q) :=
  foldl (scoreStep answers) (Some (0, 0)) questions.

(** A JavaScript number that may be NaN or infinite. *)
Inductive jsnum := Finite (q : Q) | NaN | PosInfinity | NegInfinity.

(** [(totalScore / maxScore) * 100] *)
Definition riskScoreOf (totalScore maxScore : Q) : jsnum :=
  if Qeq_bool maxScore 0 then
    if Qeq_bool totalScore 0 then NaN
    else if Qle_bool 0 totalScore then PosInfinity else NegInfinity
  else Finite (totalScore / maxScore * 100).

(** [x < bound] *)
Definition lessThan (x : jsnum) (bound : Q) : bool :=
  match x with
  | Finite q => negb (Qle_bool bound q)
  | NaN | PosInfinity => false
  | NegInfinity => true
  end.

Definition calculateRiskProfile (answers : gmap string Answer)
    : option ProfileKey :=
  '(totalScore, maxScore) ← scores riskQuestions answers;
  let riskScore := riskScoreOf totalScore maxScore in
  Some (if lessThan riskScore 30 then conservative
        else if lessThan riskScore 70 then moderate
        else aggressive).

End RiskAssessment.

(** ** The portfolio chart (components/dashboard/portfolio-chart.tsx) *)

Module PortfolioChart.

Record Point := mkPoint {
  date : string;
  value : Q;
  benchmark : Q
}.

(* Mock data for portfolio performance *)
Definition mockData : list Point :=
  [ mkPoint "2023-01" 100000 100000;
    mkPoint "2023-02" 102500 101200;
    mkPoint "2023-03" 98500 99500;
    mkPoint "2023-04" 105000 103800;
    mkPoint "2023-05" 108500 106500;
    mkPoint "2023-06" 112000 109200;
    mkPoint "2023-07" 109500 107800;
    mkPoint "2023-08" 115000 111500;
    mkPoint "2023-09" 118500 114200;
    mkPoint "2023-10" 120000 116800;
    mkPoint "2023-11" 123500 119500;
    mkPoint "2023-12" 125430 121200 ].

(** [PortfolioChart()] takes no props: what it plots is the [data] of its
    [AreaChart], the series under the keys "value" and "benchmark". *)
Definition PortfolioChart : list Point := mockData.

End PortfolioChart.

(** ** The portfolio overview (components/dashboard/portfolio-overview.tsx)
       and its metrics panel (components/dashboard/performance-metrics.tsx) *)

Module PortfolioOverview.

Record MockPosition := mkMockPosition {
  id : string;
  symbol : string;
  name : string;
  shares : Q;
  averagePrice : Q;
  currentPrice : Q;
  marketValue : Q;
  costBasis : Q;
  gain : Q;
  gainPercent : Q;
  weight : Q
}.

Record MockPortfolio := mkMockPortfolio {
  totalValue : Q;
  totalCost : Q;
  totalGain : Q;
  totalGainPercent : Q;
  dayChange : Q;
  dayChangePercent : Q;
  positions : list MockPosition
}.

Record Metrics := mkMetrics {
  totalReturn : Q;
  annualizedReturn : Q;
  volatility : Q;
  sharpeRatio : Q;
  maxDrawdown : Q;
  beta : Q;
  alpha : Q;
  informationRatio : Q
}.

(* Mock data - in real app, this would come from API *)
Definition mockPortfolio : MockPortfolio :=
  mkMockPortfolio (12543050 # 100) 100000 (2543050 # 100) (2543 # 100)
    (125075 # 100) (101 # 100)
    [ mkMockPosition "1" "AAPL" "Apple Inc." 50 150 (17525 # 100)
        (876250 # 100) 7500 (126250 # 100) (1683 # 100) (699 # 100);
      mkMockPosition "2" "GOOGL" "Alphabet Inc." 25 2800 (320050 # 100)
        (8001250 # 100) 70000 (1001250 # 100) (1430 # 100) (6378 # 100);
      mkMockPosition "3" "TSLA" "Tesla Inc." 100 200 (25075 # 100)
        25075 20000 5075 (2538 # 100) (1999 # 100);
      mkMockPosition "4" "MSFT" "Microsoft Corporation" 30 300 (28550 # 100)
        8565 9000 (-435) (-483 # 100) (683 # 100) ].

Definition mockMetrics : Metrics :=
  mkMetrics (2543 # 100) (1215 # 100) (185 # 10) (125 # 100) (-82 # 10)
    (115 # 100) (23 # 10) (85 # 100).

(** [x > y] on numbers. *)
Definition gt (x y : Q) : bool := negb (Qle_bool x y).

(** [config.format]: [formatPercentage(value)] (of lib/utils) or
    [value.toFixed(2)]; the panel is kept as the number handed to it. *)
Inductive Format := percentage | toFixed2.

Record MetricConfig := mkConfig {
  key : Metrics -> Q;               (* [metrics[config.key]] *)
  label : string;
  format : Format;
  color : Q -> string;              (* a class name, or a function of the value *)
  description : string
}.

Definition metricConfigs : list MetricConfig :=
  [ mkConfig totalReturn "Total Return" percentage (λ _, "text-profit")
      "Total return since inception";
    mkConfig annualizedReturn "Annualized Return" percentage (λ _, "text-profit")
      "Average annual return";
    mkConfig volatility "Volatility" percentage (λ _, "text-neutral")
      "Standard deviation of returns";
    mkConfig sharpeRatio "Sharpe Ratio" toFixed2
      (λ value, if gt value 1 then "text-profit"
                else if gt value (5 # 10) then "text-neutral" else "text-loss")
      "Risk-adjusted return measure";
    mkConfig maxDrawdown "Max Drawdown" percentage (λ _, "text-loss")
      "Maximum peak-to-trough decline";
    mkConfig beta "Beta" toFixed2
      (λ value, if gt value (12 # 10) then "text-loss"
                else if gt value (8 # 10) then "text-neutral" else "text-profit")
      "Sensitivity to market movements";
    mkConfig alpha "Alpha" percentage
      (λ value, if gt value 0 then "text-profit" else "text-loss")
      "Excess return vs benchmark";
    mkConfig informationRatio "Information Ratio" toFixed2
      (λ value, if gt value (5 # 10) then "text-profit"
                else if gt value 0 then "text-neutral" else "text-loss")
      "Consistency of excess returns" ].

(** One tile of the panel: label, description, and the value under the
    format and colour class of its configuration. *)
Record Tile := mkTile {
  tileLabel : string;
  tileDescription : string;
  tileValue : Q;
  tileFormat : Format;
  tileColor : string
}.

(** [PerformanceMetrics({ metrics })] *)
Definition PerformanceMetrics (metrics : Metrics) : list Tile :=
  (λ config,
     let value := key config metrics in
     let colorClass := color config value in
     mkTile (label config) (description config) value (format config) colorClass)
  <$> metricConfigs.

(** The parts of what [PortfolioOverview()] renders below the summary cards:
    the chart, the metrics panel and the position list.  The component takes
    no props. *)
Record View := mkView {
  chart : list PortfolioChart.Point;      (* <PortfolioChart /> *)
  metricsPanel : list Tile;               (* <PerformanceMetrics metrics={mockMetrics} /> *)
  positionList : list MockPosition        (* <PositionList positions={mockPortfolio.positions} /> *)
}.

Definition PortfolioOverview : View :=
  mkView PortfolioChart.PortfolioChart
         (PerformanceMetrics mockMetrics)
         (positions mockPortfolio).

End PortfolioOverview.

(** ** Definitions that follow the words of the specification *)

Definition Qsum (l : list Q) : Q := foldr Qplus 0 l.

(** In the words of the specification (section 3): [totalValue = Σ marketValue].
    The controller stores no portfolio total. *)
Definition totalValue (ps : list Position.t) : Q :=
  Qsum (Position.marketValue <$> ps).

Definition totalWeight (ps : list Position.t) : Q :=
  Qsum (Position.weight <$> ps).

(** In the words of the specification: "approximately 100", for a tolerance
    [eps]. *)
Definition approx100 (eps x : Q) : Prop := Qabs (x - 100) <= eps.

(** In the words of the specification (section 4.4):
    [maxDrawdown = min over t of (value_t / runningMax(value_0..t) - 1)]. *)
Fixpoint drawdowns (peak : Q) (series : list Q) : list Q :=
  match series with
  | [] => []
  | v :: rest =>
      let peak' := Qmax peak v in
      (v / peak' - 1) :: drawdowns peak' rest
  end.

Definition maxDrawdown_spec (series : list Q) : Q :=
  match series with
  | [] => 0
  | v :: rest => foldr Qmin 0 (drawdowns v (v :: rest))
  end.




(** ** middleware/errorHandler.ts and middleware/notFound.ts *)

Module ErrorHandler.

(** [err.code]: a number (Mongo) or a string (Prisma). *)
Inductive Code := CodeNumber (n : Z) | CodeString (s : string).

#[global] Instance Code_eq_dec : EqDecision Code.
Proof. solve_decision. Defined.

(** One of [Object.values(err.errors)], as [val.message] reads it: [null] or
    [undefined], of which no property can be read, or any other value, with
    its [message] when it has one (a string). *)
Inductive ErrorValue :=
  | Nullish
  | Value (message : option string).

#[global] Instance ErrorValue_eq_dec : EqDecision ErrorValue.
Proof. solve_decision. Defined.

(** A thrown value, with the properties the error middleware reads.
    [errors]: the values of the [errors] property, [None] when the property
    is missing (or [null]). *)
Record AppError := mkError {
  name : string;
  message : string;
  stack : option string;
  statusCode : option nat;
  isOperational : option bool;
  code : option Code;
  errors : option (list ErrorValue)
}.

(** The body the error middleware and [notFound] send. *)
Record ErrorBody := mkErrorBody {
  success : bool;
  data : Data;
  error : string;
  bodyMessage : option string       (* the [message] property *)
}.

(** [createError(message, statusCode)]; [stack] is the trace the engine
    attaches to the new [Error]. *)
Definition createError (stack message : string) (statusCode : nat) : AppError :=
  mkError "Error" message (Some stack) (Some statusCode) (Some true) None None.

(** [new Error(message)] *)
Definition newError (stack message : string) : AppError :=
  mkError "Error" message (Some stack) None None None None.

(** [Array.prototype.join(', ')] over the messages: a missing message is
    joined as the empty string. *)
Definition joinMessages (l : list (option string)) : string :=
  String.concat ", " (default "" <$> l).

(** [val.message]; [None]: a [TypeError], for [null] and [undefined]. *)
Definition valMessage (val : ErrorValue) : option (option string) :=
  match val with
  | Nullish => None
  | Value message => Some message
  end.

(** [errorHandler].  Of the local [error] only [statusCode] and [message]
    are read at the end, so it is kept as that pair; [{ ...err }] copies
    [statusCode], and [error.message = err.message] the message.  [None]:
    the middleware itself throws, in [Object.values] of a missing [errors]
    or in [val.message] of a value that is [null] or [undefined]. *)
Definition errorHandler (nodeEnv : option string) (err : AppError)
    : option (nat * ErrorBody) :=
  let error := (statusCode err, message err) in
  (* Mongoose bad ObjectId *)
  let error :=
    if String.eqb (name err) "CastError"
    then (Some 404%nat, "Resource not found") else error in
  (* Mongoose duplicate key *)
  let error :=
    if String.eqb (name err) "MongoError"
       && bool_decide (code err = Some (CodeNumber 11000))
    then (Some 400%nat, "Duplicate field value entered") else error in
  (* Mongoose validation error *)
  error ← (if String.eqb (name err) "ValidationError"
           then (λ l, (Some 400%nat, joinMessages l))
                  <$> (errors err ≫= mapM valMessage)
           else Some error);
  (* JWT errors *)
  let error :=
    if String.eqb (name err) "JsonWebTokenError"
    then (Some 401%nat, "Invalid token") else error in
  let error :=
    if String.eqb (name err) "TokenExpiredError"
    then (Some 401%nat, "Token expired") else error in
  (* Prisma errors *)
  let error :=
    if String.eqb (name err) "PrismaClientKnownRequestError" then
      if bool_decide (code err = Some (CodeString "P2002"))
      then (Some 400%nat, "Duplicate field value entered")
      else if bool_decide (code err = Some (CodeString "P2025"))
      then (Some 404%nat, "Record not found")
      else error
    else error in
  let response :=
    mkErrorBody false DNull
      (if String.eqb error.2 "" then "Server Error" else error.2)
      (if bool_decide (nodeEnv = Some "development") then stack err else None) in
  Some (match error.1 with
        | Some (S n) => S n
        | _ => 500%nat                      (* error.statusCode || 500 *)
        end,
        response).

(** [notFound] *)
Definition notFound (originalUrl : string) : nat * ErrorBody :=
  (404%nat,
   mkErrorBody false DNull ("Route " +:+ originalUrl +:+ " not found")
     (Some "The requested resource was not found on this server")).

End ErrorHandler.

(** ** middleware/auth.ts and the token generators of authController.ts *)

Module Auth.

(** [req.user]: the properties the middleware and the handlers read. *)
Record User := mkUser {
  id : string;
  role : option string
}.

(** A token payload: the properties that are signed and read back. *)
Record Payload := mkPayload {
  userId : option string;
  user : option User
}.

(** The errors of the jsonwebtoken library; [TokenExpiredError] and
    [NotBeforeError] are subclasses of [JsonWebTokenError]. *)
Inductive VerifyError := JsonWebTokenError | TokenExpiredError | NotBeforeError.

Definition errorName (e : VerifyError) : string :=
  match e with
  | JsonWebTokenError => "JsonWebTokenError"
  | TokenExpiredError => "TokenExpiredError"
  | NotBeforeError => "NotBeforeError"
  end.

(** [error instanceof jwt.JsonWebTokenError] *)
Definition instanceofJsonWebTokenError (e : VerifyError) : bool := true.

(** [error instanceof jwt.TokenExpiredError] *)
Definition instanceofTokenExpiredError (e : VerifyError) : bool :=
  match e with TokenExpiredError => true | _ => false end.

(** The result of [jwt.verify]: the decoded payload, or a thrown error with
    its message. *)
Inductive Verified :=
  | Decoded (payload : Payload)
  | VerifyThrows (e : VerifyError) (msg : string).

(** How a middleware ends: [next()] with [req.user] as it then is,
    [next(error)], or a throw. *)
Inductive Result :=
  | Next (reqUser : option User)
  | NextError (err : ErrorHandler.AppError)
  | Throws (err : ErrorHandler.AppError).

Fixpoint dropChars (n : nat) (s : string) : string :=
  match n, s with
  | O, _ => s
  | S n', String _ s' => dropChars n' s'
  | S _, EmptyString => EmptyString
  end.

(** [s.replace(pattern, replacement)] for a string pattern: the first
    occurrence is replaced. *)
Fixpoint replaceFirst (pattern replacement s : string) : string :=
  if String.prefix pattern s
  then replacement +:+ dropChars (String.length pattern) s
  else match s with
       | EmptyString => EmptyString
       | String c s' => String c (replaceFirst pattern replacement s')
       end.

(** [x || d] on strings: [d] replaces a missing or empty string. *)
Definition orString (x : option string) (d : string) : string :=
  match x with
  | Some (String c s) => String c s
  | _ => d
  end.

Section WithJwt.

(** [jwt.sign(payload, secret, { expiresIn })] and [jwt.verify(token, secret)]
    of the jsonwebtoken library, the environment variables, and the stack
    trace given to errors created here. *)
Variable sign : Payload → string → string → string.
Variable verify : string → string → Verified.
Variable JWT_SECRET JWT_REFRESH_SECRET : string.
Variable JWT_EXPIRES_IN JWT_REFRESH_EXPIRES_IN : option string.
Variable stack : string.

(** Generate JWT token *)
Definition generateToken (userId : string) : string :=
  sign (mkPayload (Some userId) None) JWT_SECRET (orString JWT_EXPIRES_IN "7d").

(** Generate refresh token *)
Definition generateRefreshToken (userId : string) : string :=
  sign (mkPayload (Some userId) None) JWT_REFRESH_SECRET
       (orString JWT_REFRESH_EXPIRES_IN "30d").

(** [req.header('Authorization')?.replace('Bearer ', '')] *)
Definition bearerToken (authorization : option string) : option string :=
  replaceFirst "Bearer " "" <$> authorization.

Definition authenticate (authorization : option string) : Result :=
  match bearerToken authorization with
  | None | Some EmptyString =>
      (* thrown inside the try, caught, not a jwt error: next(error) *)
      NextError (ErrorHandler.createError stack "Access denied. No token provided." 401)
  | Some token =>
      match verify token JWT_SECRET with
      | Decoded decoded => Next (user decoded)
      | VerifyThrows e msg =>
          if instanceofJsonWebTokenError e
          then Throws (ErrorHandler.createError stack "Invalid token." 401)
          else if instanceofTokenExpiredError e
          then Throws (ErrorHandler.createError stack "Token expired." 401)
          else NextError (ErrorHandler.mkError (errorName e) msg (Some stack)
                            None None None None)
      end
  end.

Definition authorize (roles : list string) (reqUser : option User) : Result :=
  match reqUser with
  | None =>
      Throws (ErrorHandler.createError stack
                "Access denied. User not authenticated." 401)
  | Some u =>
      if existsb (String.eqb (orString (role u) "user")) roles
      then Next (Some u)
      else Throws (ErrorHandler.createError stack
                     "Access denied. Insufficient permissions." 403)
  end.

Definition optionalAuth (authorization : option string) : Result :=
  match bearerToken authorization with
  | None | Some EmptyString => Next None
  | Some token =>
      match verify token JWT_SECRET with
      | Decoded decoded => Next (user decoded)
      | VerifyThrows _ _ => Next None     (* continue without user *)
      end
  end.

End WithJwt.

End Auth.

(** ** A handler behind [asyncHandler] and the error middleware *)

Section Served.

(** [process.env.NODE_ENV], the stack trace of a thrown error and the message
    the engine gives the [TypeError] of reading a property of [undefined]. *)
Variable nodeEnv : option string.
Variable stack : string.
Variable typeErrorMessage : string.

(** What the client is sent for an outcome of a handler: the handler's own
    response, or the error middleware's for what [asyncHandler] caught.
    [None]: nothing the sources determine (a request stopped by
    [validateRequest]). *)
Definition answer (out : Outcome) : option (nat * (ApiResponse + ErrorHandler.ErrorBody)) :=
  match out with
  | Sent status response => Some (status, inl response)
  | Thrown msg =>
      (λ r, (r.1, inr r.2))
        <$> ErrorHandler.errorHandler nodeEnv (ErrorHandler.newError stack msg)
  | Rejected _ => None
  end.

(** A controller operation for the [req.user] that the authentication
    middleware left on the request.  Every handler evaluates [req.user!.id]
    while it builds its first query, before any query runs: without a user
    that is a [TypeError]. *)
Definition serve (reqUser : option Auth.User) (env : Env) (op : Op) (db : Store)
    : Store * option (nat * (ApiResponse + ErrorHandler.ErrorBody)) :=
  match reqUser with
  | None =>
      (db,
       (λ r, (r.1, inr r.2))
         <$> ErrorHandler.errorHandler nodeEnv
               (ErrorHandler.mkError "TypeError" typeErrorMessage (Some stack)
                  None None None None))
  | Some u =>
      let r := handle env (Auth.id u) op db in
      (r.1, answer r.2)
  end.

End Served.

(** ** The state of the risk questionnaire (risk-assessment.tsx) *)

Module RiskAssessmentState.

Import RiskAssessment.

(** The four [useState] cells of the component. *)
Record State := mkState {
  currentQuestion : nat;
  answers : gmap string Answer;
  isCompleted : bool;
  riskProfile : option ProfileKey
}.

Definition initial : State := mkState 0 ∅ false None.

Definition handleAnswer (questionId : string) (answer : Answer) (s : State) : State :=
  mkState (currentQuestion s) (<[questionId := answer]> (answers s))
          (isCompleted s) (riskProfile s).

(** [None]: [calculateRiskProfile] is outside the model (see [contribution]). *)
Definition handleNext (s : State) : option State :=
  if (currentQuestion s <? length riskQuestions - 1)%nat
  then Some (mkState (currentQuestion s + 1) (answers s) (isCompleted s)
                     (riskProfile s))
  else
    profile ← calculateRiskProfile (answers s);
    Some (mkState (currentQuestion s) (answers s) true (Some profile)).

Definition handlePrevious (s : State) : State :=
  if (0 <? currentQuestion s)%nat
  then mkState (currentQuestion s - 1) (answers s) (isCompleted s) (riskProfile s)
  else s.

Definition resetAssessment (s : State) : State := mkState 0 ∅ false None.

(** [((currentQuestion + 1) / riskQuestions.length) * 100] *)
Definition progress (s : State) : Q :=
  inject_Z (Z.of_nat (currentQuestion s + 1))
  / inject_Z (Z.of_nat (length riskQuestions)) * 100.

(** What the rendered component lets the user click. *)
Inductive Click :=
  | ClickOption (index : nat)      (* the index-th option button *)
  | ClickScale (value : nat)       (* the scale button showing [value] *)
  | ClickPrevious
  | ClickNext
  | ClickRetake.

(** One click on the rendered view.  The result view (shown when
    [isCompleted && riskProfile]) has the Retake button; the question view
    has the answer buttons of [riskQuestions[currentQuestion]], Previous
    (disabled on the first question) and Next (disabled until the current
    question has an answer).  [None]: no such enabled button, or the view
    cannot be rendered ([currentQuestionData] undefined). *)
Definition click (c : Click) (s : State) : option State :=
  if isCompleted s && bool_decide (is_Some (riskProfile s)) then
    match c with
    | ClickRetake => Some (resetAssessment s)
    | _ => None
    end
  else
    currentQuestionData ← riskQuestions !! currentQuestion s;
    match c with
    | ClickOption index =>
        match type currentQuestionData, options currentQuestionData with
        | multiple_choice, Some opts =>
            option ← opts !! index;
            Some (handleAnswer (id currentQuestionData) (AString option) s)
        | _, _ => None
        end
    | ClickScale value =>
        match type currentQuestionData with
        | scale =>
            if (1 <=? value)%nat && (value <=? 10)%nat
            then Some (handleAnswer (id currentQuestionData)
                         (ANumber (inject_Z (Z.of_nat value))) s)
            else None
        | _ => None
        end
    | ClickPrevious =>
        if (currentQuestion s =? 0)%nat then None else Some (handlePrevious s)
    | ClickNext =>
        match answers s !! id currentQuestionData with
        | None => None
        | Some _ => handleNext s
        end
    | ClickRetake => None
    end.

(** A session: clicks that hit no enabled button change nothing. *)
Definition session (clicks : list Click) : State :=
  foldl (λ s c, default s (click c s)) initial clicks.

(** An answer the buttons of a question can record: one of its options, or
    a whole number from 1 to 10 on a scale. *)
Definition validAnswer (q : RiskQuestion) (a : Answer) : Prop :=
  match type q with
  | multiple_choice =>
      ∃ opts s, options q = Some opts ∧ a = AString s ∧ s ∈ opts
  | scale => options q = None ∧ ∃ n : nat, a = ANumber (inject_Z (Z.of_nat n))
                                          ∧ (1 ≤ n ≤ 10)%nat
  | text => False
  end.

(** What holds of every state a session can reach (see [session_invariant]). *)
Definition invariant (s : State) : Prop :=
  (currentQuestion s < length riskQuestions)%nat
  ∧ (∀ q a, q ∈ riskQuestions → answers s !! id q = Some a → validAnswer q a)
  ∧ (∀ i q, (i < currentQuestion s)%nat → riskQuestions !! i = Some q →
            is_Some (answers s !! id q))
  ∧ (isCompleted s = true →
     (∀ q, q ∈ riskQuestions → is_Some (answers s !! id q))
     ∧ riskProfile s = calculateRiskProfile (answers s)
     ∧ is_Some (riskProfile s)).

End RiskAssessmentState.

(** ** Predicates on stores used by the properties *)

(** No handler ever writes a weight other than the 0 of the create branch. *)
Definition allWeightsZero (db : Store) : Prop :=
  ∀ k p, positions db !! k = Some p → Position.weight p = 0.

(** The columns no handler ever recomputes, and the agreement of a position
    row with the key it is stored under. *)
Definition placeholderRow (k : string * string) (p : Position.t) : Prop :=
  Position.weight p = 0 ∧ Position.gain p = 0 ∧ Position.gainPercent p = 0
  ∧ Position.marketValue p = Position.costBasis p
  ∧ Position.portfolioId p = k.1 ∧ Position.symbol p = k.2.

(** The store cut down to the rows of one user: the portfolios the user
    owns, and the positions and transactions of those portfolios. *)
Definition restrict (user : string) (db : Store) : Store :=
  mkStore (filter (ownedBy user) (portfolios db))
          (filter (positionOf db user) (positions db))
          (filter (transactionOf db user) (transactions db)).




(** The constraints the database keeps: a portfolio row is stored under its
    own id, and every position and transaction refers to a stored portfolio
    (foreign keys). *)
Definition wellFormed (db : Store) : Prop :=
  (∀ k p, portfolios db !! k = Some p → Portfolio.id p = k)
  ∧ (∀ k p, positions db !! k = Some p → is_Some (portfolios db !! k.1))
  ∧ (∀ t, t ∈ transactions db → is_Some (portfolios db !! Transaction.portfolioId t)).

(** The id the database generates for a new portfolio is not in use. *)
Definition freshId (env : Env) (db : Store) : Prop :=
  portfolios db !! newId env = None.

(** ** Sample data *)

Module Sample.

(** User u1 owns one portfolio, p1. *)
Definition store1 : Store :=
  (createPortfolio (mkEnv "p1" 1) "u1" "Main" emptyStore).1.

(** ... holding 50 AAPL bought at 150. *)
Definition store2 : Store :=
  (addPosition (mkEnv "x1" 2) "u1" "p1" (PositionBody.mk "AAPL" 50 150) store1).1.

(** ... to which 50 more at 160 are added. *)
Definition store3 : Store :=
  (addPosition (mkEnv "x2" 3) "u1" "p1" (PositionBody.mk "AAPL" 50 160) store2).1.

Definition buy : TransactionBody.t :=
  TransactionBody.mk "AAPL" "BUY" 10 100 (Some 5) None.

Definition sell : TransactionBody.t :=
  TransactionBody.mk "AAPL" "SELL" 10 100 (Some 5) None.

Definition sell60 : TransactionBody.t :=
  TransactionBody.mk "AAPL" "SELL" 60 170 None None.

Definition env4 : Env := mkEnv "t1" 4.

(** The third question of the questionnaire (weight 5, four options). *)
Definition question3 : RiskAssessment.RiskQuestion :=
  nth 2 RiskAssessment.riskQuestions
      (RiskAssessment.mkQuestion "" "" RiskAssessment.text None 0 "").

(** Two answer sheets that differ only in the answer to question 3: a string
    that is none of its options, and its first option. *)
Definition answersUnmatched : gmap string RiskAssessment.Answer :=
  {[ "1" := RiskAssessment.AString "Income generation";
     "3" := RiskAssessment.AString "Something else" ]}.

Definition answersFirst : gmap string RiskAssessment.Answer :=
  {[ "1" := RiskAssessment.AString "Income generation";
     "3" := RiskAssessment.AString "Sell all investments immediately" ]}.

(** A second user, u2, with a portfolio, a position and a transaction of
    their own, added to [store2]. *)
Definition otherCalls : list Call :=
  [ (mkEnv "p2" 5, "u2", CreatePortfolio "Other");
    (mkEnv "y1" 6, "u2", AddPosition "p2" (PositionBody.mk "TSLA" 5 200));
    (mkEnv "t9" 7, "u2",
     AddTransaction "p2" (TransactionBody.mk "TSLA" "BUY" 5 200 None None)) ].

Definition store2other : Store := runCalls otherCalls store2.

End Sample.

(** * Properties *)

(** ** Recording a transaction *)

Lemma addTransaction_inv env user id body db db' out :
  addTransaction env user id body db = (db', out) →
  (portfolio_findFirst id user db = None ∧ db' = db ∧ out = Thrown "Portfolio not found")
  ∨ (∃ p t,
       portfolio_findFirst id user db = Some p ∧
       t = Transaction.mk (newId env) id user (TransactionBody.symbol body)
             (TransactionBody.type body) (TransactionBody.shares body)
             (TransactionBody.price body)
             (TransactionBody.shares body * TransactionBody.price body
              + default 0 (TransactionBody.fees body))
             (default 0 (TransactionBody.fees body))
             (TransactionBody.notes body) (now env) ∧
       db' = mkStore (portfolios db) (positions db) (transactions db ++ [t]) ∧
       out = Sent 201 (mkResponse true (DTransaction t)
                                  "Transaction added successfully")).
Proof.
  unfold addTransaction. intros H.
  destruct (portfolio_findFirst id user db) as [p|] eqn:Hp.
  - right. inversion H; subst. eauto 10.
  - left. inversion H; subst. auto.
Qed.

Lemma validateRequest_inv errors next db db' out :
  validateRequest errors next db = (db', out) →
  (errors = [] ∧ next db = (db', out))
  ∨ (errors ≠ [] ∧ db' = db ∧ out = Rejected InvalidTransactionError).
Proof.
  destruct errors; simpl; intros H.
  - left; auto.
  - right. inversion H; subst. auto.
Qed.

(** What passing the validation chain says about the body. *)
Lemma transactionValidation_nil body :
  transactionValidation body = [] →
  Validator.isLength 1 10 (Validator.trim (TransactionBody.symbol body)) = true ∧
  Validator.isIn ["BUY"; "SELL"] (TransactionBody.type body) = true ∧
  Validator.isFloat (1 # 10000) (TransactionBody.shares body) = true ∧
  Validator.isFloat (1 # 100) (TransactionBody.price body) = true ∧
  (∀ f, TransactionBody.fees body = Some f → Validator.isFloat 0 f = true).
Proof.
  unfold transactionValidation. intros H.
  destruct (Validator.isLength 1 10 _); [| discriminate H].
  destruct (Validator.isIn _ _); [| discriminate H].
  destruct (Validator.isFloat (1 # 10000) _); [| discriminate H].
  destruct (Validator.isFloat (1 # 100) _); [| discriminate H].
  simpl in H. repeat split.
  intros f Hf. rewrite Hf in H.
  destruct (Validator.isFloat 0 f); [reflexivity | discriminate H].
Qed.

Lemma isIn_BUY_SELL s :
  Validator.isIn ["BUY"; "SELL"] s = true → s = "BUY" ∨ s = "SELL".
Proof.
  unfold Validator.isIn. simpl. intros H.
  destruct (String.eqb_spec s "BUY"); [left; assumption |].
  destruct (String.eqb_spec s "SELL"); [right; assumption |].
  discriminate.
Qed.

(** C1, as amended: for every transaction the route accepts, the stored
    total equals shares*price + fees (fees being 0 when the request has
    none), for a BUY and for a SELL alike: the handler does not look at the
    type when it computes the total. *)
Theorem C1_total_adds_fees env user id body db db' status response :
  post_transactions env user id body db = (db', Sent status response) →
  ∃ t, data response = DTransaction t
     ∧ transactions db' = transactions db ++ [t]
     ∧ (Transaction.type t = "BUY" ∨ Transaction.type t = "SELL")
     ∧ Transaction.type t = TransactionBody.type body
     ∧ Transaction.shares t = TransactionBody.shares body
     ∧ Transaction.price t = TransactionBody.price body
     ∧ Transaction.fees t = default 0 (TransactionBody.fees body)
     ∧ Transaction.total t
       = Transaction.shares t * Transaction.price t + Transaction.fees t.
Proof.
  unfold post_transactions. intros H.
  apply validateRequest_inv in H as [[Hv H] | (_ & _ & H)]; [| discriminate].
  apply transactionValidation_nil in Hv as (_ & Hty & _).
  apply isIn_BUY_SELL in Hty.
  apply addTransaction_inv in H as [(_ & _ & H) | (p & t & _ & Ht & Hdb & H)];
    [discriminate |].
  inversion H; subst. exists
    (Transaction.mk (newId env) id user
       (TransactionBody.symbol (transactionSanitized body))
       (TransactionBody.type (transactionSanitized body))
       (TransactionBody.shares (transactionSanitized body))
       (TransactionBody.price (transactionSanitized body))
       (TransactionBody.shares (transactionSanitized body)
        * TransactionBody.price (transactionSanitized body)
        + default 0 (TransactionBody.fees (transactionSanitized body)))
       (default 0 (TransactionBody.fees (transactionSanitized body)))
       (TransactionBody.notes (transactionSanitized body)) (now env)).
  simpl. repeat split; auto.
Qed.

Lemma C1_total_adds_fees_witness :
  let r := post_transactions Sample.env4 "u1" "p1" Sample.sell Sample.store1 in
  r = (r.1, Sent 201 (mkResponse true
                        (DTransaction (Transaction.mk "t1" "p1" "u1" "AAPL" "SELL"
                                         10 100 1005 5 None 4))
                        "Transaction added successfully"))
  ∧ ∃ t, DTransaction (Transaction.mk "t1" "p1" "u1" "AAPL" "SELL"
                         10 100 1005 5 None 4) = DTransaction t
     ∧ transactions r.1 = transactions Sample.store1 ++ [t]
     ∧ (Transaction.type t = "BUY" ∨ Transaction.type t = "SELL")
     ∧ Transaction.type t = "SELL"
     ∧ Transaction.shares t = 10
     ∧ Transaction.price t = 100
     ∧ Transaction.fees t = 5
     ∧ Transaction.total t
       = Transaction.shares t * Transaction.price t + Transaction.fees t.
Proof.
  assert (H : post_transactions Sample.env4 "u1" "p1" Sample.sell Sample.store1
              = ((post_transactions Sample.env4 "u1" "p1" Sample.sell Sample.store1).1,
                 Sent 201 (mkResponse true
                        (DTransaction (Transaction.mk "t1" "p1" "u1" "AAPL" "SELL"
                                         10 100 1005 5 None 4))
                        "Transaction added successfully")))
    by (vm_compute; reflexivity).
  split; [exact H |].
  exact (C1_total_adds_fees _ _ _ _ _ _ _ _ H).
Defined.

(** C1, as stated, fails for a SELL with fees: selling 10 shares at 100 with
    fees 5 stores the total 1005, not 10*100 - 5 = 995. *)
Lemma C1_sell_total_counterexample :
  ∃ t, transactions
         (post_transactions Sample.env4 "u1" "p1" Sample.sell Sample.store1).1 = [t]
     ∧ Transaction.type t = "SELL"
     ∧ Transaction.total t == 1005
     ∧ ¬ (Transaction.total t
          == Transaction.shares t * Transaction.price t - Transaction.fees t).
Proof.
  eexists. split; [vm_compute; reflexivity |].
  simpl. split; [reflexivity |]. split; [reflexivity |].
  intros H. vm_compute in H. discriminate H.
Qed.


(** C9: a successful addTransaction call creates exactly one Transaction
    record and leaves the portfolio table and every Position row as they
    were: no shares, averagePrice, costBasis, marketValue, gain or weight
    changes when a BUY or a SELL is recorded. *)
Theorem C9_addTransaction_frame env user id body db db' status response :
  addTransaction env user id body db = (db', Sent status response) →
  positions db' = positions db
  ∧ portfolios db' = portfolios db
  ∧ ∃ t, transactions db' = transactions db ++ [t]
       ∧ length (transactions db') = S (length (transactions db))
       ∧ data response = DTransaction t
       ∧ Transaction.portfolioId t = id.
Proof.
  intros H.
  apply addTransaction_inv in H as [(_ & _ & H) | (p & t & _ & Ht & Hdb & H)];
    [discriminate |].
  inversion H; subst; simpl. repeat split.
  eexists. repeat split.
  rewrite length_app. simpl. lia.
Qed.

Lemma C9_addTransaction_frame_witness :
  let r := addTransaction Sample.env4 "u1" "p1" Sample.sell60 Sample.store2 in
  let t := Transaction.mk "t1" "p1" "u1" "AAPL" "SELL" 60 170 (60 * 170 + 0) 0 None 4 in
  r = (r.1, Sent 201 (mkResponse true (DTransaction t)
                                 "Transaction added successfully"))
  ∧ positions r.1 = positions Sample.store2
  ∧ portfolios r.1 = portfolios Sample.store2
  ∧ ∃ t', transactions r.1 = transactions Sample.store2 ++ [t']
        ∧ length (transactions r.1) = S (length (transactions Sample.store2))
        ∧ DTransaction t = DTransaction t'
        ∧ Transaction.portfolioId t' = "p1".
Proof.
  intros r t.
  assert (H : r = (r.1, Sent 201 (mkResponse true (DTransaction t)
                                             "Transaction added successfully")))
    by (vm_compute; reflexivity).
  split; [exact H |].
  exact (C9_addTransaction_frame _ _ _ _ _ _ _ _ H).
Defined.

(** C2, as stated, fails: with 50 AAPL held, a SELL of 60 is not refused
    with InsufficientSharesError; it is answered 201 and a Transaction record
    is added to the ledger. *)
Lemma C2_oversell_counterexample :
  let r := post_transactions Sample.env4 "u1" "p1" Sample.sell60 Sample.store2 in
  Position.shares <$> positions Sample.store2 !! ("p1", "AAPL") = Some 50
  ∧ r.2 ≠ Rejected InsufficientSharesError
  ∧ (∃ response, r.2 = Sent 201 response)
  ∧ length (transactions Sample.store2) = 0%nat
  ∧ length (transactions r.1) = 1%nat.
Proof.
  repeat split; try (vm_compute; reflexivity).
  - vm_compute. discriminate.
  - eexists. vm_compute. reflexivity.
Qed.

(** C2, as amended: a SELL that asks for more shares than the position of
    that (portfolio, symbol) holds is not checked against the holding.  When
    it passes validation and the portfolio belongs to the caller, the call
    succeeds with status 201, appends exactly one Transaction record and
    changes no Position row, so a subsequent position query still reports the
    pre-SELL share count. *)
Theorem C2_oversell_is_recorded env user id body db p held :
  TransactionBody.type body = "SELL" →
  transactionValidation body = [] →
  portfolio_findFirst id user db = Some p →
  positions db !! (id, Validator.trim (TransactionBody.symbol body)) = Some held →
  Position.shares held < TransactionBody.shares body →
  ∃ t, post_transactions env user id body db
       = (mkStore (portfolios db) (positions db) (transactions db ++ [t]),
          Sent 201 (mkResponse true (DTransaction t) "Transaction added successfully"))
     ∧ Transaction.type t = "SELL"
     ∧ Transaction.shares t = TransactionBody.shares body
     ∧ positions (post_transactions env user id body db).1
         !! (id, Validator.trim (TransactionBody.symbol body)) = Some held
     ∧ (getPositions user id (post_transactions env user id body db).1).2
       = (getPositions user id db).2.
Proof.
  intros Hty Hv Hp Hheld _.
  unfold post_transactions. rewrite Hv. simpl.
  unfold addTransaction. rewrite Hp. simpl.
  eexists. split; [reflexivity |]. simpl.
  repeat split; assumption.
Qed.

Lemma C2_oversell_is_recorded_witness :
  let held := Position.mk "x1" "p1" "AAPL" 50 150 150 (50 * 150) (50 * 150) 0 0 0 in
  let r := post_transactions Sample.env4 "u1" "p1" Sample.sell60 Sample.store2 in
  TransactionBody.type Sample.sell60 = "SELL"
  ∧ transactionValidation Sample.sell60 = []
  ∧ portfolio_findFirst "p1" "u1" Sample.store2 = Some (Portfolio.mk "p1" "u1" "Main" 1)
  ∧ positions Sample.store2 !! ("p1", Validator.trim "AAPL") = Some held
  ∧ Position.shares held < TransactionBody.shares Sample.sell60
  ∧ ∃ t, r = (mkStore (portfolios Sample.store2) (positions Sample.store2)
                      (transactions Sample.store2 ++ [t]),
              Sent 201 (mkResponse true (DTransaction t)
                                   "Transaction added successfully"))
       ∧ Transaction.type t = "SELL"
       ∧ Transaction.shares t = 60
       ∧ positions r.1 !! ("p1", Validator.trim "AAPL") = Some held
       ∧ (getPositions "u1" "p1" r.1).2 = (getPositions "u1" "p1" Sample.store2).2.
Proof.
  intros held r.
  assert (H1 : TransactionBody.type Sample.sell60 = "SELL") by reflexivity.
  assert (H2 : transactionValidation Sample.sell60 = []) by (vm_compute; reflexivity).
  assert (H3 : portfolio_findFirst "p1" "u1" Sample.store2
               = Some (Portfolio.mk "p1" "u1" "Main" 1)) by (vm_compute; reflexivity).
  assert (H4 : positions Sample.store2 !! ("p1", Validator.trim "AAPL") = Some held)
    by (vm_compute; reflexivity).
  assert (H5 : Position.shares held < TransactionBody.shares Sample.sell60)
    by (vm_compute; reflexivity).
  repeat (split; [assumption |]).
  exact (C2_oversell_is_recorded Sample.env4 "u1" "p1" Sample.sell60 Sample.store2
           _ held H1 H2 H3 H4 H5).
Defined.

(** ** Validation of the transaction route *)

Lemma isFloat_true min x : Validator.isFloat min x = true ↔ min <= x.
Proof. unfold Validator.isFloat. apply Qle_bool_iff. Qed.

Lemma validation_rejects body db next :
  transactionValidation body ≠ [] →
  validateRequest (transactionValidation body) next db
  = (db, Rejected InvalidTransactionError).
Proof. destruct (transactionValidation body); [congruence | reflexivity]. Qed.

(** C5: a submitted transaction whose shares or price is not positive is
    rejected with InvalidTransactionError before the handler runs (the store
    is returned untouched); and a transaction that is not so rejected has
    shares > 0, price > 0 and fees >= 0. *)
Theorem C5_invalid_transaction_rejected env user id body db :
  (TransactionBody.shares body <= 0 ∨ TransactionBody.price body <= 0 →
   post_transactions env user id body db = (db, Rejected InvalidTransactionError))
  ∧ ((post_transactions env user id body db).2 ≠ Rejected InvalidTransactionError →
     0 < TransactionBody.shares body
     ∧ 0 < TransactionBody.price body
     ∧ 0 <= default 0 (TransactionBody.fees body)).
Proof.
  unfold post_transactions. split.
  - intros Hbad. apply validation_rejects. intros Hv.
    apply transactionValidation_nil in Hv as (_ & _ & Hs & Hp & _).
    apply isFloat_true in Hs, Hp. destruct Hbad; lra.
  - intros Hacc.
    destruct (transactionValidation body) eqn:Hv; [| simpl in Hacc; congruence].
    apply transactionValidation_nil in Hv as (_ & _ & Hs & Hp & Hf).
    apply isFloat_true in Hs, Hp. repeat split; try lra.
    destruct (TransactionBody.fees body) as [f|]; simpl; [| lra].
    apply isFloat_true. apply Hf. reflexivity.
Qed.

Lemma C5_invalid_transaction_rejected_witness :
  let bad := TransactionBody.mk "AAPL" "BUY" 0 100 None None in
  (TransactionBody.shares bad <= 0 ∨ TransactionBody.price bad <= 0)
  ∧ post_transactions Sample.env4 "u1" "p1" bad Sample.store1
    = (Sample.store1, Rejected InvalidTransactionError)
  ∧ (post_transactions Sample.env4 "u1" "p1" Sample.buy Sample.store1).2
    ≠ Rejected InvalidTransactionError
  ∧ 0 < TransactionBody.shares Sample.buy
  ∧ 0 < TransactionBody.price Sample.buy
  ∧ 0 <= default 0 (TransactionBody.fees Sample.buy).
Proof.
  intros bad.
  assert (H1 : TransactionBody.shares bad <= 0 ∨ TransactionBody.price bad <= 0)
    by (left; vm_compute; discriminate).
  assert (H2 : (post_transactions Sample.env4 "u1" "p1" Sample.buy Sample.store1).2
               ≠ Rejected InvalidTransactionError)
    by (vm_compute; discriminate).
  split; [exact H1 |].
  split; [exact (proj1 (C5_invalid_transaction_rejected
                          Sample.env4 "u1" "p1" bad Sample.store1) H1) |].
  split; [exact H2 |].
  exact (proj2 (C5_invalid_transaction_rejected
                  Sample.env4 "u1" "p1" Sample.buy Sample.store1) H2).
Defined.

(** ** Position rows *)



(** What the update branch of the upsert in addPosition writes. *)
Lemma addPosition_existing env user id body db pf p :
  portfolio_findFirst id user db = Some pf →
  positions db !! (id, PositionBody.symbol body) = Some p →
  ∃ p', positions (addPosition env user id body db).1
          !! (id, PositionBody.symbol body) = Some p'
      ∧ Position.shares p' = Position.shares p + PositionBody.shares body
      ∧ Position.averagePrice p' = 0
      ∧ Position.costBasis p' = Position.costBasis p
      ∧ Position.marketValue p' = Position.marketValue p.
Proof.
  intros Hpf Hp. unfold addPosition. rewrite Hpf, Hp. simpl.
  rewrite lookup_insert_eq. eexists. split; [reflexivity |]. simpl. auto.
Qed.

(** What the create branch writes. *)
Lemma addPosition_fresh env user id body db pf :
  portfolio_findFirst id user db = Some pf →
  positions db !! (id, PositionBody.symbol body) = None →
  addPosition env user id body db
  = (let p := Position.mk (newId env) id (PositionBody.symbol body)
                (PositionBody.shares body) (PositionBody.averagePrice body)
                (PositionBody.averagePrice body)
                (PositionBody.shares body * PositionBody.averagePrice body)
                (PositionBody.shares body * PositionBody.averagePrice body)
                0 0 0 in
     (mkStore (portfolios db) (<[(id, PositionBody.symbol body) := p]> (positions db))
              (transactions db),
      Sent 201 (mkResponse true (DPosition (Some p)) "Position added successfully"))).
Proof. intros Hpf Hp. unfold addPosition. rewrite Hpf, Hp. reflexivity. Qed.

(** C3, at the failing input: 50 AAPL at 150 are added to a portfolio and
    then 50 more at 160.  The position then holds 100 shares with
    averagePrice 0 and cost basis 7500: averagePrice is neither
    costBasis / shares (75) nor the blended 155; the update branch of the
    upsert sets the placeholder 0. *)
Theorem C3_averagePrice_placeholder :
  ∃ p, positions Sample.store3 !! ("p1", "AAPL") = Some p
     ∧ Position.shares p == 100
     ∧ 0 < Position.shares p
     ∧ Position.averagePrice p == 0
     ∧ Position.costBasis p == 7500
     ∧ ¬ (Position.averagePrice p == Position.costBasis p / Position.shares p)
     ∧ ¬ (Position.averagePrice p == 155).
Proof.
  eexists. split; [vm_compute; reflexivity |]. simpl.
  repeat split; try reflexivity; intros H; vm_compute in H; discriminate H.
Qed.

Lemma rows_elem {K A} `{Countable K} (m : gmap K A) (x : A) :
  x ∈ rows m ↔ ∃ k, m !! k = Some x.
Proof.
  unfold rows. rewrite list_elem_of_fmap. split.
  - intros ([k y] & -> & Hky). exists k. apply elem_of_map_to_list. exact Hky.
  - intros [k Hk]. exists (k, x). split; [reflexivity |].
    apply elem_of_map_to_list. exact Hk.
Qed.

Lemma position_where_lookup id user db k p :
  position_where id user db !! k = Some p →
  positions db !! k = Some p ∧ k.1 = id ∧ owner db k.1 = Some user.
Proof.
  unfold position_where. intros H.
  apply map_lookup_filter_Some in H as [H Hin].
  apply map_lookup_filter_Some in H as [H Hown].
  auto.
Qed.






(** *** Weights *)

Lemma handle_weights_zero env user op db :
  allWeightsZero db → allWeightsZero (handle env user op db).1.
Proof.
  intros Hz. destruct op; simpl;
    unfold getPortfolios, getPortfolio, createPortfolio, updatePortfolio,
      deletePortfolio, getPositions, addPosition, updatePosition, removePosition,
      getTransactions, addTransaction;
    repeat case_match; simplify_eq; simpl; try exact Hz.
  all: intros k p Hk; simpl in Hk.
  - apply map_lookup_filter_Some in Hk as [Hk _]. eauto.
  - apply lookup_insert_Some in Hk as [[_ <-] | [_ Hk]]; simpl; eauto.
  - apply lookup_insert_Some in Hk as [[_ <-] | [_ Hk]]; simpl; eauto.
  - apply lookup_insert_Some in Hk as [[_ <-] | [_ Hk]]; simpl; [| eauto].
    match goal with
    | H : position_where _ _ _ !! _ = Some _ |- _ =>
        apply position_where_lookup in H as (H & _ & _)
    end. eauto.
  - apply lookup_delete_Some in Hk as [_ Hk]. eauto.
Qed.

Lemma runCalls_weights_zero calls db :
  allWeightsZero db → allWeightsZero (runCalls calls db).
Proof.
  unfold runCalls. revert db.
  induction calls as [| c calls IH]; intros db Hz; simpl; [exact Hz |].
  apply IH, handle_weights_zero, Hz.
Qed.

(** Whatever calls are made on an empty store, every stored weight is 0. *)
Lemma reachable_weights_zero calls : allWeightsZero (runCalls calls emptyStore).
Proof. apply runCalls_weights_zero. intros k p Hk. simpl in Hk. discriminate. Qed.

(** C6, at the failing input: a portfolio holding the single position
    50 AAPL at 150.  The position list the controller returns has total
    value 7500 > 0 while its weights sum to 0, which is not within 1 of 100:
    the weight is stored as 0 and never calculated from the portfolio
    total. *)
Theorem C6_weights_not_calculated :
  ∃ ps, (getPositions "u1" "p1" Sample.store2).2
        = Sent 200 (mkResponse true (DPositionList ps)
                               "Positions retrieved successfully")
      ∧ length ps = 1%nat
      ∧ 0 < totalValue ps
      ∧ totalWeight ps == 0
      ∧ ¬ approx100 1 (totalWeight ps).
Proof.
  eexists. split; [vm_compute; reflexivity |].
  repeat split; try reflexivity.
  intros H. vm_compute in H. apply H. reflexivity.
Qed.

(** The fixture of the overview: total value 125430.50 > 0, weights summing
    to 97.59. *)
Lemma mockPortfolio_weights :
  let ws := PortfolioOverview.weight
              <$> PortfolioOverview.positions PortfolioOverview.mockPortfolio in
  0 < PortfolioOverview.totalValue PortfolioOverview.mockPortfolio
  ∧ Qsum ws == 9759 # 100
  ∧ ¬ approx100 1 (Qsum ws).
Proof.
  repeat split; try reflexivity.
  intros H. vm_compute in H. apply H. reflexivity.
Qed.

(** ** Performance metrics *)

Lemma foldr_Qmin_nonpos l : foldr Qmin 0 l <= 0.
Proof.
  induction l as [| x l IH]; simpl; [lra |].
  apply Qle_trans with (foldr Qmin 0 l); [apply Q.le_min_r | exact IH].
Qed.

(** The specification's own formula never yields a positive drawdown. *)
Lemma maxDrawdown_spec_nonpos series : maxDrawdown_spec series <= 0.
Proof.
  destruct series as [| v rest]; unfold maxDrawdown_spec; [lra |].
  apply foldr_Qmin_nonpos.
Qed.



(** ** Risk questionnaire *)

Lemma indexOfFrom_absent i l x :
  x ∉ l → RiskAssessment.indexOfFrom i l x = (-1)%Z.
Proof.
  revert i. induction l as [| y l IH]; intros i Hx; simpl; [reflexivity |].
  apply not_elem_of_cons in Hx as [Hxy Hx].
  destruct (String.eqb_spec y x); [congruence |]. apply IH, Hx.
Qed.

(** Without an options list the index is the 0 that [|| 0] supplies. *)
Lemma optionIndex_no_options q answer :
  RiskAssessment.options q = None → RiskAssessment.optionIndex q answer = 0%Z.
Proof. intros H. unfold RiskAssessment.optionIndex. rewrite H. reflexivity. Qed.

(** C10, as stated, fails: on question 3 (weight 5) an answer that is none
    of the options adds 0 to the total score, not (0+1)*5, and the first
    option adds 5; with "Income generation" answered to question 1 the
    profile is conservative in the first case and moderate in the second. *)
Lemma C10_unmatched_answer_counterexample :
  let q := Sample.question3 in
  RiskAssessment.type q = RiskAssessment.multiple_choice
  ∧ RiskAssessment.weight q == 5
  ∧ (∃ c, RiskAssessment.contribution q (RiskAssessment.AString "Something else")
          = Some c
        ∧ c == 0
        ∧ ¬ (c == (0 + 1) * RiskAssessment.weight q))
  ∧ (∃ c, RiskAssessment.contribution q
            (RiskAssessment.AString "Sell all investments immediately") = Some c
        ∧ c == 5)
  ∧ RiskAssessment.calculateRiskProfile Sample.answersUnmatched
    = Some RiskAssessment.conservative
  ∧ RiskAssessment.calculateRiskProfile Sample.answersFirst
    = Some RiskAssessment.moderate.
Proof.
  split; [reflexivity |]. split; [reflexivity |].
  split; [eexists; split; [vm_compute; reflexivity |];
          split; [reflexivity | intros H; vm_compute in H; discriminate H] |].
  split; [eexists; split; [vm_compute; reflexivity | reflexivity] |].
  split; vm_compute; reflexivity.
Qed.

(** C10, as amended: for every multiple-choice question, an answer string
    that is not in the options list has option index -1 (indexOf's -1 is
    truthy, so [|| 0] leaves it) and adds (-1+1)*weight = 0 to the total
    score, while the first listed option has index 0 and adds (0+1)*weight.
    The resulting profile can therefore tell an unmatched answer from the
    first option (conservative against moderate on the two sample sheets). *)
Theorem C10_unmatched_answer_adds_zero (q : RiskAssessment.RiskQuestion)
    (l : list string) (s : string) :
  RiskAssessment.type q = RiskAssessment.multiple_choice →
  RiskAssessment.options q = Some l →
  s ∉ l →
  RiskAssessment.optionIndex q (RiskAssessment.AString s) = (-1)%Z
  ∧ RiskAssessment.contribution q (RiskAssessment.AString s)
    = Some (inject_Z (-1 + 1) * RiskAssessment.weight q)
  ∧ inject_Z (-1 + 1) * RiskAssessment.weight q == 0
  ∧ (∀ first rest, l = first :: rest →
       RiskAssessment.optionIndex q (RiskAssessment.AString first) = 0%Z
       ∧ RiskAssessment.contribution q (RiskAssessment.AString first)
         = Some (inject_Z (0 + 1) * RiskAssessment.weight q))
  ∧ RiskAssessment.calculateRiskProfile Sample.answersUnmatched
    ≠ RiskAssessment.calculateRiskProfile Sample.answersFirst.
Proof.
  intros Hty Hopt Hs.
  assert (Hidx : RiskAssessment.optionIndex q (RiskAssessment.AString s) = (-1)%Z).
  { unfold RiskAssessment.optionIndex. rewrite Hopt. simpl.
    rewrite (indexOfFrom_absent _ _ _ Hs). reflexivity. }
  split; [exact Hidx |].
  split; [unfold RiskAssessment.contribution; rewrite Hty, Hidx; reflexivity |].
  split; [change (inject_Z (-1 + 1)) with 0; apply Qmult_0_l |].
  split.
  - intros first rest ->.
    assert (Hfirst : RiskAssessment.optionIndex q (RiskAssessment.AString first) = 0%Z).
    { unfold RiskAssessment.optionIndex. rewrite Hopt. simpl.
      rewrite String.eqb_refl. reflexivity. }
    split; [exact Hfirst |].
    unfold RiskAssessment.contribution. rewrite Hty, Hfirst. reflexivity.
  - vm_compute. discriminate.
Qed.

Lemma C10_unmatched_answer_adds_zero_witness :
  let q := Sample.question3 in
  let l := ["Sell all investments immediately";
            "Sell some investments to reduce risk";
            "Hold and wait for recovery";
            "Buy more while prices are low"] in
  RiskAssessment.type q = RiskAssessment.multiple_choice
  ∧ RiskAssessment.options q = Some l
  ∧ ("Something else" ∉ l)
  ∧ RiskAssessment.optionIndex q (RiskAssessment.AString "Something else") = (-1)%Z
  ∧ RiskAssessment.contribution q (RiskAssessment.AString "Something else")
    = Some (inject_Z (-1 + 1) * RiskAssessment.weight q).
Proof.
  intros q l.
  assert (H1 : RiskAssessment.type q = RiskAssessment.multiple_choice) by reflexivity.
  assert (H2 : RiskAssessment.options q = Some l) by reflexivity.
  assert (H3 : "Something else" ∉ l).
  { intros H. apply list_elem_of_In in H. simpl in H.
    repeat (destruct H as [H | H]; [discriminate H |]). exact H. }
  repeat (split; [assumption |]).
  pose proof (C10_unmatched_answer_adds_zero q l "Something else" H1 H2 H3)
    as (Ha & Hb & _).
  split; [exact Ha | exact Hb].
Defined.

(** ** Isolation between users *)

Lemma list_filter_ext_in {A} (P1 P2 : A → Prop)
    `{!∀ x, Decision (P1 x), !∀ x, Decision (P2 x)} (l : list A) :
  (∀ x, x ∈ l → P1 x ↔ P2 x) → filter P1 l = filter P2 l.
Proof.
  induction l as [| a l IH]; intros Hext; [reflexivity |].
  rewrite !filter_cons.
  rewrite IH by (intros x Hx; apply Hext; right; exact Hx).
  apply decide_ext, Hext. left.
Qed.

Lemma store_eq (a b : Store) :
  portfolios a = portfolios b →
  positions a = positions b →
  transactions a = transactions b →
  a = b.
Proof. destruct a, b; simpl; intros; subst; reflexivity. Qed.

Lemma owner_Some db pid w :
  owner db pid = Some w ↔
  ∃ p, portfolios db !! pid = Some p ∧ Portfolio.userId p = w.
Proof. unfold owner. rewrite fmap_Some. naive_solver. Qed.

Lemma findFirst_Some id u db p :
  portfolio_findFirst id u db = Some p ↔
  portfolios db !! id = Some p ∧ Portfolio.userId p = u.
Proof.
  unfold portfolio_findFirst.
  destruct (portfolios db !! id) as [q|]; [| naive_solver].
  case_decide; naive_solver.
Qed.

Lemma findFirst_None id u db :
  portfolio_findFirst id u db = None ↔ owner db id ≠ Some u.
Proof.
  unfold portfolio_findFirst, owner.
  destruct (portfolios db !! id) as [q|]; simpl; [| naive_solver].
  case_decide; naive_solver.
Qed.

Lemma findFirst_owner id u db p :
  portfolio_findFirst id u db = Some p → owner db id = Some u.
Proof. rewrite findFirst_Some, owner_Some. eauto. Qed.

Lemma restrict_portfolios_lookup u db k p :
  portfolios (restrict u db) !! k = Some p ↔
  portfolios db !! k = Some p ∧ Portfolio.userId p = u.
Proof. simpl. rewrite map_lookup_filter_Some. reflexivity. Qed.

Lemma owner_restrict u db pid w :
  owner (restrict u db) pid = Some w ↔ w = u ∧ owner db pid = Some u.
Proof.
  rewrite !owner_Some. setoid_rewrite restrict_portfolios_lookup. naive_solver.
Qed.

Lemma findFirst_restrict id u db :
  portfolio_findFirst id u (restrict u db) = portfolio_findFirst id u db.
Proof.
  apply option_eq. intros p. rewrite !findFirst_Some, restrict_portfolios_lookup.
  naive_solver.
Qed.

Lemma restrict_idemp u db : restrict u (restrict u db) = restrict u db.
Proof.
  apply store_eq.
  - apply map_filter_id. intros k p Hk.
    apply restrict_portfolios_lookup in Hk as [_ Hk]. exact Hk.
  - apply map_filter_id. intros k p Hk. simpl in Hk.
    apply map_lookup_filter_Some in Hk as [_ Hk].
    unfold positionOf in *. simpl in *. apply owner_restrict. auto.
  - simpl. apply list_filter_filter_r. intros t Ht.
    unfold transactionOf in *. apply owner_restrict. auto.
Qed.

Lemma positionOf_ext (db db' : Store) (u : string)
    (m : gmap (string * string) Position.t) :
  portfolios db' = portfolios db →
  filter (positionOf db' u) m = filter (positionOf db u) m.
Proof.
  intros Hp. apply map_filter_ext. intros k x _.
  unfold positionOf, owner. rewrite Hp. reflexivity.
Qed.

Lemma transactionOf_ext (db db' : Store) (u : string) (l : list Transaction.t) :
  portfolios db' = portfolios db →
  filter (transactionOf db' u) l = filter (transactionOf db u) l.
Proof.
  intros Hp. apply list_filter_iff. intros t.
  unfold transactionOf, owner. rewrite Hp. reflexivity.
Qed.

Lemma position_where_restrict id u db :
  position_where id u (restrict u db) = position_where id u db.
Proof.
  unfold position_where. f_equal.
  exact (f_equal positions (restrict_idemp u db)).
Qed.

Lemma transaction_where_restrict id u db :
  transaction_where id u (restrict u db) = transaction_where id u db.
Proof.
  unfold transaction_where. f_equal.
  exact (f_equal transactions (restrict_idemp u db)).
Qed.

Lemma positions_include_restrict id u db :
  owner db id = Some u →
  positions_include id (restrict u db) = positions_include id db.
Proof.
  intros Hown. unfold positions_include. f_equal. simpl.
  apply map_filter_filter_l. intros k x _ Hin.
  unfold inPortfolio, positionOf in *. simpl in *. subst. exact Hown.
Qed.

Lemma transactions_include_restrict id u db :
  owner db id = Some u →
  transactions_include id (restrict u db) = transactions_include id db.
Proof.
  intros Hown. unfold transactions_include. simpl.
  apply list_filter_filter_l. intros t Hin.
  unfold transactionOf. rewrite Hin. exact Hown.
Qed.

Lemma positions_lookup_restrict id symbol u db :
  owner db id = Some u →
  positions (restrict u db) !! (id, symbol) = positions db !! (id, symbol).
Proof.
  intros Hown. apply option_eq. intros x. simpl.
  rewrite map_lookup_filter_Some. unfold positionOf. simpl. naive_solver.
Qed.

Lemma findMany_restrict u db :
  portfolio_findMany u (restrict u db) = portfolio_findMany u db.
Proof.
  unfold portfolio_findMany. do 2 f_equal.
  exact (f_equal portfolios (restrict_idemp u db)).
Qed.

Lemma findMany_owner u db p :
  wellFormed db →
  p ∈ portfolio_findMany u db → owner db (Portfolio.id p) = Some u.
Proof.
  intros (Hid & _) Hp. unfold portfolio_findMany in Hp.
  rewrite merge_sort_Permutation in Hp. unfold rows in Hp.
  apply list_elem_of_fmap in Hp as ([k q] & -> & Hkq).
  apply elem_of_map_to_list in Hkq.
  apply map_lookup_filter_Some in Hkq as [Hk Hu]. simpl in *.
  rewrite (Hid _ _ Hk). apply owner_Some. eauto.
Qed.

(** *** Reads and writes only see the caller's rows *)

Lemma getPortfolios_restrict u db :
  wellFormed db →
  (getPortfolios u db).2 = (getPortfolios u (restrict u db)).2.
Proof.
  intros Hwf. unfold getPortfolios. simpl. do 3 f_equal.
  rewrite findMany_restrict. apply list_fmap_ext. intros i p Hp.
  apply list_elem_of_lookup_2 in Hp. apply (findMany_owner _ _ _ Hwf) in Hp.
  rewrite positions_include_restrict, transactions_include_restrict by exact Hp.
  reflexivity.
Qed.

Lemma getPortfolio_restrict u id db :
  (getPortfolio u id db).2 = (getPortfolio u id (restrict u db)).2.
Proof.
  unfold getPortfolio. rewrite findFirst_restrict.
  destruct (portfolio_findFirst id u db) as [p|] eqn:Hp; [| reflexivity].
  apply findFirst_owner in Hp. simpl.
  rewrite positions_include_restrict, transactions_include_restrict by exact Hp.
  reflexivity.
Qed.

Lemma createPortfolio_restrict env u name db :
  wellFormed db → freshId env db →
  (createPortfolio env u name db).2 = (createPortfolio env u name (restrict u db)).2
  ∧ restrict u (createPortfolio env u name db).1
    = (createPortfolio env u name (restrict u db)).1.
Proof.
  intros (_ & Hpos & Htx) Hfresh. unfold freshId in Hfresh.
  assert (HR : portfolios (restrict u db) !! newId env = None).
  { simpl. apply map_lookup_filter_None_2. left. exact Hfresh. }
  unfold createPortfolio. rewrite Hfresh, HR. simpl.
  split; [reflexivity |]. apply store_eq; simpl.
  - apply map_filter_insert_True. reflexivity.
  - apply map_filter_ext. intros k x Hk.
    unfold positionOf, owner. simpl.
    rewrite lookup_insert_ne; [reflexivity |].
    intros Heq. apply Hpos in Hk as [q Hq]. congruence.
  - apply list_filter_ext_in. intros t Ht.
    unfold transactionOf, owner. simpl.
    rewrite lookup_insert_ne; [reflexivity |].
    intros Heq. apply Htx in Ht as [q Hq]. congruence.
Qed.

Lemma updatePortfolio_restrict u id name db :
  (updatePortfolio u id name db).2 = (updatePortfolio u id name (restrict u db)).2
  ∧ restrict u (updatePortfolio u id name db).1
    = (updatePortfolio u id name (restrict u db)).1.
Proof.
  unfold updatePortfolio. rewrite findFirst_restrict.
  destruct (portfolio_findFirst id u db) as [p|] eqn:Hp; simpl;
    [| split; reflexivity].
  apply findFirst_Some in Hp as [Hp Hu].
  rewrite !lookup_insert_eq. split; [reflexivity |].
  assert (Hown : ∀ pid,
    Portfolio.userId <$>
      <[id := Portfolio.mk (Portfolio.id p) (Portfolio.userId p) name
                (Portfolio.createdAt p)]> (portfolios db) !! pid
    = Portfolio.userId <$> portfolios db !! pid).
  { intros pid. destruct (decide (id = pid)) as [<- |];
      [rewrite lookup_insert_eq, Hp | rewrite lookup_insert_ne by done];
      reflexivity. }
  apply store_eq; simpl.
  - apply map_filter_insert_True. exact Hu.
  - apply map_filter_ext. intros k x _. unfold positionOf, owner. simpl.
    rewrite Hown. reflexivity.
  - apply list_filter_iff. intros t. unfold transactionOf, owner. simpl.
    rewrite Hown. reflexivity.
Qed.

Lemma deletePortfolio_restrict u id db :
  (deletePortfolio u id db).2 = (deletePortfolio u id (restrict u db)).2
  ∧ restrict u (deletePortfolio u id db).1
    = (deletePortfolio u id (restrict u db)).1.
Proof.
  unfold deletePortfolio. rewrite findFirst_restrict.
  destruct (portfolio_findFirst id u db) as [p|] eqn:Hp; simpl;
    [| split; reflexivity].
  split; [reflexivity |].
  apply store_eq; simpl.
  - apply map_filter_delete.
  - apply map_eq. intros k. apply option_eq. intros x.
    rewrite !map_lookup_filter_Some. unfold positionOf, inPortfolio, owner. simpl.
    split.
    + intros [[Hk Hne] Ho]. rewrite lookup_delete_ne in Ho by congruence. auto.
    + intros [[Hk Ho] Hne]. rewrite lookup_delete_ne by congruence. auto.
  - rewrite !list_filter_filter. apply list_filter_iff. intros t.
    unfold transactionOf, owner. simpl. split.
    + intros [Ho Hne]. rewrite lookup_delete_ne in Ho by congruence. auto.
    + intros [Hne Ho]. rewrite lookup_delete_ne by congruence. auto.
Qed.

Lemma addPosition_restrict env u id body db :
  (addPosition env u id body db).2 = (addPosition env u id body (restrict u db)).2
  ∧ restrict u (addPosition env u id body db).1
    = (addPosition env u id body (restrict u db)).1.
Proof.
  unfold addPosition. rewrite findFirst_restrict.
  destruct (portfolio_findFirst id u db) as [p|] eqn:Hp; simpl;
    [| split; reflexivity].
  apply findFirst_owner in Hp.
  pose proof (positions_lookup_restrict id (PositionBody.symbol body) u db Hp) as Hl.
  simpl in Hl. rewrite Hl.
  split; [reflexivity |].
  apply store_eq; simpl; [reflexivity | | reflexivity].
  apply map_filter_insert_True. exact Hp.
Qed.

Lemma updatePosition_restrict u id symbol shares averagePrice db :
  (updatePosition u id symbol shares averagePrice db).2
  = (updatePosition u id symbol shares averagePrice (restrict u db)).2
  ∧ restrict u (updatePosition u id symbol shares averagePrice db).1
    = (updatePosition u id symbol shares averagePrice (restrict u db)).1.
Proof.
  unfold updatePosition. rewrite position_where_restrict.
  destruct (position_where id u db !! (id, symbol)) as [p|] eqn:Hp; simpl;
    [| split; reflexivity].
  apply position_where_lookup in Hp as (Hp & _ & Hown). simpl in Hown.
  rewrite !lookup_insert_eq. split; [reflexivity |].
  apply store_eq; simpl; [reflexivity | | reflexivity].
  apply map_filter_insert_True. exact Hown.
Qed.

Lemma removePosition_restrict u id symbol db :
  (removePosition u id symbol db).2 = (removePosition u id symbol (restrict u db)).2
  ∧ restrict u (removePosition u id symbol db).1
    = (removePosition u id symbol (restrict u db)).1.
Proof.
  unfold removePosition. rewrite position_where_restrict.
  destruct (position_where id u db !! (id, symbol)) as [p|] eqn:Hp; simpl;
    [| split; reflexivity].
  split; [reflexivity |].
  apply store_eq; simpl; [reflexivity | | reflexivity].
  apply map_filter_delete.
Qed.

Lemma addTransaction_restrict env u id body db :
  (addTransaction env u id body db).2 = (addTransaction env u id body (restrict u db)).2
  ∧ restrict u (addTransaction env u id body db).1
    = (addTransaction env u id body (restrict u db)).1.
Proof.
  unfold addTransaction. rewrite findFirst_restrict.
  destruct (portfolio_findFirst id u db) as [p|] eqn:Hp; simpl;
    [| split; reflexivity].
  apply findFirst_owner in Hp.
  split; [reflexivity |].
  apply store_eq; simpl; [reflexivity | reflexivity |].
  rewrite filter_app. f_equal.
  rewrite filter_cons_True by exact Hp. reflexivity.
Qed.

(** Running an operation for [u] on the whole store and on the store cut
    down to [u]'s rows gives the same response and the same rows of [u]. *)
Lemma handle_restrict env u op db :
  wellFormed db → freshId env db →
  (handle env u op db).2 = (handle env u op (restrict u db)).2
  ∧ restrict u (handle env u op db).1 = (handle env u op (restrict u db)).1.
Proof.
  intros Hwf Hfresh. destruct op; simpl.
  - split; [apply getPortfolios_restrict, Hwf | reflexivity].
  - split; [apply getPortfolio_restrict |].
    unfold getPortfolio. rewrite findFirst_restrict.
    destruct (portfolio_findFirst id u db); reflexivity.
  - apply createPortfolio_restrict; assumption.
  - apply updatePortfolio_restrict.
  - apply deletePortfolio_restrict.
  - split; [| reflexivity].
    unfold getPositions. rewrite position_where_restrict. reflexivity.
  - apply addPosition_restrict.
  - apply updatePosition_restrict.
  - apply removePosition_restrict.
  - split; [| reflexivity].
    unfold getTransactions. rewrite transaction_where_restrict. reflexivity.
  - apply addTransaction_restrict.
Qed.

(** *** Rows of other users are left alone *)

Lemma restrict_other_portfolios (v : string) (db : Store)
    (P' : gmap string Portfolio.t) (pos : gmap (string * string) Position.t)
    (txs : list Transaction.t) :
  filter (ownedBy v) P' = filter (ownedBy v) (portfolios db) →
  (∀ pid, Portfolio.userId <$> P' !! pid = Some v ↔ owner db pid = Some v) →
  filter (positionOf db v) pos = filter (positionOf db v) (positions db) →
  filter (transactionOf db v) txs = filter (transactionOf db v) (transactions db) →
  restrict v (mkStore P' pos txs) = restrict v db.
Proof.
  intros HP Hown Hpos Htx. apply store_eq; simpl.
  - exact HP.
  - rewrite <- Hpos. apply map_filter_ext. intros k x _.
    unfold positionOf at 1. unfold owner at 1. simpl. apply Hown.
  - rewrite <- Htx. apply list_filter_iff. intros t.
    unfold transactionOf at 1. unfold owner at 1. simpl. apply Hown.
Qed.

Lemma handle_other env u v op db :
  u ≠ v → restrict v (handle env u op db).1 = restrict v db.
Proof.
  intros Huv. destruct op; simpl; try reflexivity.
  - (* getPortfolio *)
    unfold getPortfolio. destruct (portfolio_findFirst id u db); reflexivity.
  - (* createPortfolio *)
    unfold createPortfolio.
    destruct (portfolios db !! newId env) as [q|] eqn:Hq; simpl; [reflexivity |].
    apply restrict_other_portfolios; try reflexivity.
    + apply map_filter_insert_not'; [exact Huv | congruence].
    + intros pid. unfold owner.
      destruct (decide (newId env = pid)) as [<- |];
        [rewrite lookup_insert_eq, Hq | rewrite lookup_insert_ne by done];
        simpl; [naive_solver | reflexivity].
  - (* updatePortfolio *)
    unfold updatePortfolio.
    destruct (portfolio_findFirst id u db) as [p|] eqn:Hp; simpl; [| reflexivity].
    apply findFirst_Some in Hp as [Hp Hu].
    apply restrict_other_portfolios; try reflexivity.
    + apply map_filter_insert_not'.
      * unfold ownedBy. simpl. congruence.
      * intros y Hy. unfold ownedBy. simpl. congruence.
    + intros pid. unfold owner.
      destruct (decide (id = pid)) as [<- |];
        [rewrite lookup_insert_eq, Hp | rewrite lookup_insert_ne by done];
        reflexivity.
  - (* deletePortfolio *)
    unfold deletePortfolio.
    destruct (portfolio_findFirst id u db) as [p|] eqn:Hp; simpl; [| reflexivity].
    apply findFirst_Some in Hp as [Hp Hu].
    assert (Hown : owner db id ≠ Some v).
    { unfold owner. rewrite Hp. simpl. congruence. }
    apply restrict_other_portfolios.
    + apply map_filter_delete_not. intros y Hy. unfold ownedBy. simpl. congruence.
    + intros pid. unfold owner.
      destruct (decide (id = pid)) as [<- |];
        [rewrite lookup_delete_eq, Hp | rewrite lookup_delete_ne by done];
        simpl; [naive_solver | reflexivity].
    + apply map_filter_filter_l. intros k x _ Hk Hin.
      unfold positionOf, inPortfolio in *. simpl in *. congruence.
    + apply list_filter_filter_l. intros t Ht Hin.
      unfold transactionOf in *. congruence.
  - (* addPosition *)
    unfold addPosition.
    destruct (portfolio_findFirst id u db) as [p|] eqn:Hp; simpl; [| reflexivity].
    apply findFirst_owner in Hp.
    apply restrict_other_portfolios; try reflexivity.
    apply map_filter_insert_not. intros y. unfold positionOf. simpl. congruence.
  - (* updatePosition *)
    unfold updatePosition.
    destruct (position_where id u db !! (id, symbol)) as [p|] eqn:Hp; simpl;
      [| reflexivity].
    apply position_where_lookup in Hp as (Hp & _ & Hown). simpl in Hown.
    apply restrict_other_portfolios; try reflexivity.
    apply map_filter_insert_not. intros y. unfold positionOf. simpl. congruence.
  - (* removePosition *)
    unfold removePosition.
    destruct (position_where id u db !! (id, symbol)) as [p|] eqn:Hp; simpl;
      [| reflexivity].
    apply position_where_lookup in Hp as (Hp & _ & Hown). simpl in Hown.
    apply restrict_other_portfolios; try reflexivity.
    apply map_filter_delete_not. intros y _. unfold positionOf. simpl. congruence.
  - (* addTransaction *)
    unfold addTransaction.
    destruct (portfolio_findFirst id u db) as [p|] eqn:Hp; simpl; [| reflexivity].
    apply findFirst_owner in Hp.
    apply restrict_other_portfolios; try reflexivity.
    rewrite filter_app, filter_cons_False, filter_nil, app_nil_r; [reflexivity |].
    unfold transactionOf. simpl. congruence.
Qed.

(** *** The store invariant *)

Lemma wellFormed_empty : wellFormed emptyStore.
Proof.
  repeat split; simpl.
  - intros k p Hk. rewrite lookup_empty in Hk. discriminate.
  - intros k p Hk. rewrite lookup_empty in Hk. discriminate.
  - intros t Ht. apply elem_of_nil in Ht. contradiction.
Qed.

Lemma handle_wellFormed env u op db :
  wellFormed db → wellFormed (handle env u op db).1.
Proof.
  intros (Hid & Hpos & Htx). destruct op; simpl; try (repeat split; assumption).
  - unfold getPortfolio.
    destruct (portfolio_findFirst id u db); repeat split; assumption.
  - unfold createPortfolio.
    destruct (portfolios db !! newId env) as [q|] eqn:Hq; simpl;
      [repeat split; assumption |].
    repeat split; simpl.
    + intros k p [[<- <-] | [_ Hk]]%lookup_insert_Some; [reflexivity | eauto].
    + intros k p Hk. apply Hpos in Hk.
      rewrite lookup_insert_is_Some. destruct (decide (newId env = k.1)); auto.
    + intros t Ht. apply Htx in Ht. rewrite lookup_insert_is_Some.
      destruct (decide (newId env = Transaction.portfolioId t)); auto.
  - unfold updatePortfolio.
    destruct (portfolio_findFirst id u db) as [p|] eqn:Hp; simpl;
      [| repeat split; assumption].
    apply findFirst_Some in Hp as [Hp _].
    repeat split; simpl.
    + intros k q [[<- <-] | [_ Hk]]%lookup_insert_Some; simpl; eauto.
    + intros k q Hk. apply Hpos in Hk.
      rewrite lookup_insert_is_Some. destruct (decide (id = k.1)); auto.
    + intros t Ht. apply Htx in Ht. rewrite lookup_insert_is_Some.
      destruct (decide (id = Transaction.portfolioId t)); auto.
  - unfold deletePortfolio.
    destruct (portfolio_findFirst id u db) as [p|] eqn:Hp; simpl;
      [| repeat split; assumption].
    repeat split; simpl.
    + intros k q [_ Hk]%lookup_delete_Some. eauto.
    + intros k q [Hk Hin]%map_lookup_filter_Some.
      unfold inPortfolio in Hin. simpl in Hin.
      rewrite lookup_delete_ne by congruence. eauto.
    + intros t [Hne Ht]%list_elem_of_filter.
      rewrite lookup_delete_ne by congruence. eauto.
  - unfold addPosition.
    destruct (portfolio_findFirst id u db) as [p|] eqn:Hp; simpl;
      [| repeat split; assumption].
    apply findFirst_Some in Hp as [Hp _].
    repeat split; simpl; try assumption.
    intros k q [[<- _] | [_ Hk]]%lookup_insert_Some; simpl; eauto.
  - unfold updatePosition.
    destruct (position_where id u db !! (id, symbol)) as [p|] eqn:Hp; simpl;
      [| repeat split; assumption].
    apply position_where_lookup in Hp as (Hp & _ & _).
    repeat split; simpl; try assumption.
    intros k q [[<- _] | [_ Hk]]%lookup_insert_Some; [| eauto].
    exact (Hpos _ _ Hp).
  - unfold removePosition.
    destruct (position_where id u db !! (id, symbol)) as [p|] eqn:Hp; simpl;
      [| repeat split; assumption].
    repeat split; simpl; try assumption.
    intros k q [_ Hk]%lookup_delete_Some. eauto.
  - unfold addTransaction.
    destruct (portfolio_findFirst id u db) as [p|] eqn:Hp; simpl;
      [| repeat split; assumption].
    apply findFirst_Some in Hp as [Hp _].
    repeat split; simpl; try assumption.
    intros t [Ht | ->%list_elem_of_singleton]%elem_of_app; simpl; eauto.
Qed.

Lemma runCalls_wellFormed calls db :
  wellFormed db → wellFormed (runCalls calls db).
Proof.
  unfold runCalls. revert db.
  induction calls as [| c calls IH]; intros db Hwf; simpl; [exact Hwf |].
  apply IH, handle_wellFormed, Hwf.
Qed.

(** C8: every operation of the portfolio controller works on the rows of
    the authenticated user only.  For two users u and v and two stores that
    hold the same rows of u (and differ at most in rows of other users), an
    operation run by u returns the same response on both and leaves the same
    rows of u, so nothing owned by v is revealed; and it leaves the rows of v
    exactly as they were, so nothing owned by v is mutated. *)
Theorem C8_user_isolation env u v op db1 db2 :
  u ≠ v →
  wellFormed db1 → wellFormed db2 →
  freshId env db1 → freshId env db2 →
  restrict u db1 = restrict u db2 →
  (handle env u op db1).2 = (handle env u op db2).2
  ∧ restrict u (handle env u op db1).1 = restrict u (handle env u op db2).1
  ∧ restrict v (handle env u op db1).1 = restrict v db1
  ∧ restrict v (handle env u op db2).1 = restrict v db2.
Proof.
  intros Huv Hwf1 Hwf2 Hf1 Hf2 Hsame.
  destruct (handle_restrict env u op db1 Hwf1 Hf1) as [Ho1 Hs1].
  destruct (handle_restrict env u op db2 Hwf2 Hf2) as [Ho2 Hs2].
  split; [rewrite Ho1, Ho2, Hsame; reflexivity |].
  split; [rewrite Hs1, Hs2, Hsame; reflexivity |].
  split; apply handle_other, Huv.
Qed.

Lemma C8_user_isolation_witness :
  let env := mkEnv "x9" 9 in
  let op := AddPosition "p1" (PositionBody.mk "MSFT" 10 300) in
  "u1" ≠ "u2"
  ∧ wellFormed Sample.store2 ∧ wellFormed Sample.store2other
  ∧ freshId env Sample.store2 ∧ freshId env Sample.store2other
  ∧ restrict "u1" Sample.store2 = restrict "u1" Sample.store2other
  ∧ (handle env "u1" op Sample.store2).2 = (handle env "u1" op Sample.store2other).2
  ∧ restrict "u1" (handle env "u1" op Sample.store2).1
    = restrict "u1" (handle env "u1" op Sample.store2other).1
  ∧ restrict "u2" (handle env "u1" op Sample.store2).1 = restrict "u2" Sample.store2
  ∧ restrict "u2" (handle env "u1" op Sample.store2other).1
    = restrict "u2" Sample.store2other.
Proof.
  intros env op.
  assert (H0 : "u1" ≠ "u2") by discriminate.
  assert (H1 : wellFormed Sample.store2).
  { apply (runCalls_wellFormed
             [(mkEnv "p1" 1, "u1", CreatePortfolio "Main");
              (mkEnv "x1" 2, "u1", AddPosition "p1" (PositionBody.mk "AAPL" 50 150))]
             emptyStore wellFormed_empty). }
  assert (H2 : wellFormed Sample.store2other).
  { apply runCalls_wellFormed, H1. }
  assert (H3 : freshId env Sample.store2) by (vm_compute; reflexivity).
  assert (H4 : freshId env Sample.store2other) by (vm_compute; reflexivity).
  assert (H5 : restrict "u1" Sample.store2 = restrict "u1" Sample.store2other)
    by (vm_compute; reflexivity).
  repeat (split; [assumption |]).
  exact (C8_user_isolation env "u1" "u2" op Sample.store2 Sample.store2other
           H0 H1 H2 H3 H4 H5).
Defined.

(** * Further properties of the controller *)

(** ** Ownership checks *)

Lemma position_where_Some id user symbol db p :
  position_where id user db !! (id, symbol) = Some p ↔
  positions db !! (id, symbol) = Some p ∧ owner db id = Some user.
Proof.
  unfold position_where. rewrite !map_lookup_filter_Some.
  unfold inPortfolio, positionOf. simpl. naive_solver.
Qed.

Lemma position_where_not_owned id user db :
  owner db id ≠ Some user → position_where id user db = ∅.
Proof.
  intros Hown. apply map_eq. intros k. rewrite lookup_empty.
  apply eq_None_not_Some. intros [p Hp].
  apply position_where_lookup in Hp as (_ & Hk & Ho). congruence.
Qed.

Lemma transaction_where_not_owned id user db :
  owner db id ≠ Some user → transaction_where id user db = [].
Proof.
  intros Hown. unfold transaction_where. rewrite list_filter_filter.
  induction (transactions db) as [| t l IH]; [reflexivity |].
  rewrite filter_cons_False; [exact IH |].
  unfold transactionOf. intros [Hid Ho]. congruence.
Qed.

(** X1: a portfolio that does not exist and a portfolio that belongs to
    another user are answered alike.  getPortfolio, updatePortfolio,
    deletePortfolio, addPosition and addTransaction all throw "Portfolio not
    found" and leave the store as it was. *)
Theorem portfolio_not_owned_throws env user id db :
  owner db id ≠ Some user →
  getPortfolio user id db = (db, Thrown "Portfolio not found")
  ∧ (∀ name, updatePortfolio user id name db = (db, Thrown "Portfolio not found"))
  ∧ deletePortfolio user id db = (db, Thrown "Portfolio not found")
  ∧ (∀ body, addPosition env user id body db = (db, Thrown "Portfolio not found"))
  ∧ (∀ body, addTransaction env user id body db = (db, Thrown "Portfolio not found")).
Proof.
  intros Hown. apply findFirst_None in Hown.
  unfold getPortfolio, updatePortfolio, deletePortfolio, addPosition, addTransaction.
  rewrite Hown. simpl. repeat split.
Qed.

Lemma portfolio_not_owned_throws_witness :
  let env := mkEnv "x9" 9 in
  owner Sample.store2other "p2" ≠ Some "u1"
  ∧ owner Sample.store2other "nowhere" ≠ Some "u1"
  ∧ getPortfolio "u1" "p2" Sample.store2other
    = (Sample.store2other, Thrown "Portfolio not found")
  ∧ getPortfolio "u1" "nowhere" Sample.store2other
    = (Sample.store2other, Thrown "Portfolio not found")
  ∧ deletePortfolio "u1" "p2" Sample.store2other
    = (Sample.store2other, Thrown "Portfolio not found").
Proof.
  intros env.
  assert (H1 : owner Sample.store2other "p2" ≠ Some "u1") by (vm_compute; discriminate).
  assert (H2 : owner Sample.store2other "nowhere" ≠ Some "u1")
    by (vm_compute; discriminate).
  pose proof (portfolio_not_owned_throws env "u1" "p2" Sample.store2other H1)
    as (Ha & _ & Hb & _).
  pose proof (portfolio_not_owned_throws env "u1" "nowhere" Sample.store2other H2)
    as (Hc & _).
  repeat split; assumption.
Defined.

(** X2: the two list queries make no ownership check of their own: for a
    portfolio that does not exist or belongs to another user, getPositions
    and getTransactions answer 200 with an empty list, not an error. *)
Theorem lists_of_foreign_portfolio_empty user id limit offset db :
  owner db id ≠ Some user →
  getPositions user id db
  = (db, Sent 200 (mkResponse true (DPositionList [])
                              "Positions retrieved successfully"))
  ∧ getTransactions user id limit offset db
    = (db, Sent 200 (mkResponse true (DTransactionList [])
                                "Transactions retrieved successfully")).
Proof.
  intros Hown. unfold getPositions, getTransactions.
  rewrite (position_where_not_owned _ _ _ Hown),
          (transaction_where_not_owned _ _ _ Hown).
  unfold rows. rewrite map_to_list_empty.
  change (merge_sort date_desc []) with (@nil Transaction.t).
  rewrite drop_nil, take_nil. split; reflexivity.
Qed.

Lemma lists_of_foreign_portfolio_empty_witness :
  owner Sample.store2other "p2" ≠ Some "u1"
  ∧ length (transaction_where "p2" "u2" Sample.store2other) = 1%nat
  ∧ getPositions "u1" "p2" Sample.store2other
    = (Sample.store2other,
       Sent 200 (mkResponse true (DPositionList []) "Positions retrieved successfully"))
  ∧ getTransactions "u1" "p2" None None Sample.store2other
    = (Sample.store2other,
       Sent 200 (mkResponse true (DTransactionList [])
                            "Transactions retrieved successfully")).
Proof.
  assert (H1 : owner Sample.store2other "p2" ≠ Some "u1") by (vm_compute; discriminate).
  split; [exact H1 |]. split; [vm_compute; reflexivity |].
  exact (lists_of_foreign_portfolio_empty "u1" "p2" None None Sample.store2other H1).
Defined.

(** X3: updatePosition and removePosition throw "Position not found" and
    leave the store as it was when the portfolio is not the caller's or holds
    no position for the symbol. *)
Theorem position_not_found_throws user id symbol shares averagePrice db :
  owner db id ≠ Some user ∨ positions db !! (id, symbol) = None →
  updatePosition user id symbol shares averagePrice db
  = (db, Thrown "Position not found")
  ∧ removePosition user id symbol db = (db, Thrown "Position not found").
Proof.
  intros H.
  assert (Hw : position_where id user db !! (id, symbol) = None).
  { apply eq_None_not_Some. intros [p Hp].
    apply position_where_Some in Hp as [Hp Ho]. destruct H; congruence. }
  unfold updatePosition, removePosition. rewrite Hw. simpl. split; reflexivity.
Qed.

Lemma position_not_found_throws_witness :
  (owner Sample.store2other "p2" ≠ Some "u1"
   ∨ positions Sample.store2other !! ("p2", "TSLA") = None)
  ∧ is_Some (positions Sample.store2other !! ("p2", "TSLA"))
  ∧ updatePosition "u1" "p2" "TSLA" 0 0 Sample.store2other
    = (Sample.store2other, Thrown "Position not found")
  ∧ removePosition "u1" "p2" "TSLA" Sample.store2other
    = (Sample.store2other, Thrown "Position not found").
Proof.
  assert (H1 : owner Sample.store2other "p2" ≠ Some "u1"
               ∨ positions Sample.store2other !! ("p2", "TSLA") = None)
    by (left; vm_compute; discriminate).
  split; [exact H1 |]. split; [vm_compute; eexists; reflexivity |].
  exact (position_not_found_throws "u1" "p2" "TSLA" 0 0 Sample.store2other H1).
Defined.

(** ** Round trips *)

Lemma positions_include_fresh id db :
  (∀ k p, positions db !! k = Some p → k.1 ≠ id) →
  positions_include id db = [].
Proof.
  intros H. unfold positions_include, rows.
  replace (filter (inPortfolio id) (positions db)) with
    (∅ : gmap (string * string) Position.t);
    [rewrite map_to_list_empty; reflexivity |].
  symmetry. apply map_eq. intros k. rewrite lookup_empty.
  apply eq_None_not_Some. intros [p [Hk Hin]%map_lookup_filter_Some].
  exact (H _ _ Hk Hin).
Qed.

Lemma transactions_include_fresh id (l : list Transaction.t) :
  (∀ t, t ∈ l → Transaction.portfolioId t ≠ id) →
  filter (λ t, Transaction.portfolioId t = id) l = [].
Proof.
  induction l as [| t l IH]; intros H; [reflexivity |].
  rewrite filter_cons_False by (apply H; left).
  apply IH. intros t' Ht'. apply H. right. exact Ht'.
Qed.

Lemma wellFormed_fresh env db :
  wellFormed db → freshId env db →
  (∀ k p, positions db !! k = Some p → k.1 ≠ newId env)
  ∧ (∀ t, t ∈ transactions db → Transaction.portfolioId t ≠ newId env).
Proof.
  intros (_ & Hpos & Htx) Hfresh. unfold freshId in Hfresh. split.
  - intros k p Hk Heq. apply Hpos in Hk as [q Hq]. congruence.
  - intros t Ht Heq. apply Htx in Ht as [q Hq]. congruence.
Qed.

(** X4: a portfolio just created can be read back by its creator: on a
    store that keeps its key constraints, getPortfolio on the new id returns
    the row with the given name, no positions and no transactions. *)
Theorem createPortfolio_getPortfolio env user name db :
  wellFormed db → freshId env db →
  getPortfolio user (newId env) (createPortfolio env user name db).1
  = ((createPortfolio env user name db).1,
     Sent 200 (mkResponse true
                 (DPortfolioDetail (Portfolio.mk (newId env) user name (now env)) [] [])
                 "Portfolio retrieved successfully")).
Proof.
  intros Hwf Hfresh. destruct (wellFormed_fresh env db Hwf Hfresh) as [Hp Ht].
  unfold createPortfolio. unfold freshId in Hfresh. rewrite Hfresh. simpl.
  unfold getPortfolio, portfolio_findFirst. simpl. rewrite lookup_insert_eq. simpl.
  rewrite decide_True by reflexivity.
  unfold transactions_include. simpl.
  rewrite (transactions_include_fresh _ _ Ht).
  assert (Hinc : positions_include (newId env)
            (mkStore (<[newId env := Portfolio.mk (newId env) user name (now env)]>
                        (portfolios db)) (positions db) (transactions db)) = [])
    by (apply positions_include_fresh; exact Hp).
  rewrite Hinc. reflexivity.
Qed.

Lemma createPortfolio_getPortfolio_witness :
  let env := mkEnv "p9" 9 in
  wellFormed Sample.store2other ∧ freshId env Sample.store2other
  ∧ getPortfolio "u1" "p9" (createPortfolio env "u1" "Second" Sample.store2other).1
    = ((createPortfolio env "u1" "Second" Sample.store2other).1,
       Sent 200 (mkResponse true
                   (DPortfolioDetail (Portfolio.mk "p9" "u1" "Second" 9) [] [])
                   "Portfolio retrieved successfully")).
Proof.
  intros env.
  assert (H1 : wellFormed Sample.store2other).
  { apply (runCalls_wellFormed
             ([(mkEnv "p1" 1, "u1", CreatePortfolio "Main");
               (mkEnv "x1" 2, "u1", AddPosition "p1" (PositionBody.mk "AAPL" 50 150))]
              ++ Sample.otherCalls)
             emptyStore wellFormed_empty). }
  assert (H2 : freshId env Sample.store2other) by (vm_compute; reflexivity).
  split; [exact H1 |]. split; [exact H2 |].
  exact (createPortfolio_getPortfolio env "u1" "Second" Sample.store2other H1 H2).
Defined.

(** X5: creating a portfolio and deleting it again restores the store
    exactly, on a store that keeps its key constraints. *)
Theorem createPortfolio_deletePortfolio env user name db :
  wellFormed db → freshId env db →
  deletePortfolio user (newId env) (createPortfolio env user name db).1
  = (db, Sent 200 (mkResponse true DNull "Portfolio deleted successfully")).
Proof.
  intros Hwf Hfresh. destruct (wellFormed_fresh env db Hwf Hfresh) as [Hp Ht].
  unfold createPortfolio. unfold freshId in Hfresh. rewrite Hfresh. simpl.
  unfold deletePortfolio, portfolio_findFirst. simpl. rewrite lookup_insert_eq. simpl.
  rewrite decide_True by reflexivity. simpl. f_equal.
  apply store_eq; simpl.
  - apply delete_insert_id. exact Hfresh.
  - apply map_filter_id. intros k p Hk. unfold inPortfolio. simpl. eauto.
  - induction (transactions db) as [| t l IH]; [reflexivity |].
    rewrite filter_cons_True by (apply Ht; left).
    f_equal. apply IH. intros t' Ht'. apply Ht. right. exact Ht'.
Qed.

Lemma createPortfolio_deletePortfolio_witness :
  let env := mkEnv "p9" 9 in
  wellFormed Sample.store2 ∧ freshId env Sample.store2
  ∧ deletePortfolio "u1" "p9" (createPortfolio env "u1" "Second" Sample.store2).1
    = (Sample.store2, Sent 200 (mkResponse true DNull "Portfolio deleted successfully")).
Proof.
  intros env.
  assert (H1 : wellFormed Sample.store2).
  { apply (runCalls_wellFormed
             [(mkEnv "p1" 1, "u1", CreatePortfolio "Main");
              (mkEnv "x1" 2, "u1", AddPosition "p1" (PositionBody.mk "AAPL" 50 150))]
             emptyStore wellFormed_empty). }
  assert (H2 : freshId env Sample.store2) by (vm_compute; reflexivity).
  split; [exact H1 |]. split; [exact H2 |].
  exact (createPortfolio_deletePortfolio env "u1" "Second" Sample.store2 H1 H2).
Defined.

(** X6: adding a position for a symbol the portfolio does not hold yet and
    removing it again restores the store exactly. *)
Theorem addPosition_removePosition env user id body db :
  owner db id = Some user →
  positions db !! (id, PositionBody.symbol body) = None →
  removePosition user id (PositionBody.symbol body) (addPosition env user id body db).1
  = (db, Sent 200 (mkResponse true DNull "Position removed successfully")).
Proof.
  intros Hown Hnone.
  destruct (portfolio_findFirst id user db) as [pf|] eqn:Hpf;
    [| apply findFirst_None in Hpf; contradiction].
  rewrite (addPosition_fresh _ _ _ _ _ _ Hpf Hnone). simpl.
  unfold removePosition.
  set (p := Position.mk _ _ _ _ _ _ _ _ _ _ _).
  assert (Hw : position_where id user
                 (mkStore (portfolios db)
                    (<[(id, PositionBody.symbol body) := p]> (positions db))
                    (transactions db))
               !! (id, PositionBody.symbol body) = Some p).
  { apply position_where_Some. simpl. rewrite lookup_insert_eq. auto. }
  rewrite Hw. simpl. f_equal. apply store_eq; simpl; try reflexivity.
  apply delete_insert_id. exact Hnone.
Qed.

Lemma addPosition_removePosition_witness :
  let env := mkEnv "x9" 9 in
  let body := PositionBody.mk "MSFT" 10 300 in
  owner Sample.store2 "p1" = Some "u1"
  ∧ positions Sample.store2 !! ("p1", PositionBody.symbol body) = None
  ∧ removePosition "u1" "p1" (PositionBody.symbol body)
      (addPosition env "u1" "p1" body Sample.store2).1
    = (Sample.store2, Sent 200 (mkResponse true DNull "Position removed successfully")).
Proof.
  intros env body.
  assert (H1 : owner Sample.store2 "p1" = Some "u1") by (vm_compute; reflexivity).
  assert (H2 : positions Sample.store2 !! ("p1", PositionBody.symbol body) = None)
    by (vm_compute; reflexivity).
  split; [exact H1 |]. split; [exact H2 |].
  exact (addPosition_removePosition env "u1" "p1" body Sample.store2 H1 H2).
Defined.

(** X7: adding to a position twice accumulates the shares and nothing
    else: after s1 shares at p1 and then s2 shares at p2 of a symbol the
    portfolio did not hold, the row has s1 + s2 shares, averagePrice 0, and
    still the id, current price, market value and cost basis of the first
    call. *)
Theorem addPosition_twice env1 env2 user id symbol s1 p1 s2 p2 db :
  owner db id = Some user →
  positions db !! (id, symbol) = None →
  positions (addPosition env2 user id (PositionBody.mk symbol s2 p2)
               (addPosition env1 user id (PositionBody.mk symbol s1 p1) db).1).1
    !! (id, symbol)
  = Some (Position.mk (newId env1) id symbol (s1 + s2) 0 p1 (s1 * p1) (s1 * p1) 0 0 0).
Proof.
  intros Hown Hnone.
  destruct (portfolio_findFirst id user db) as [pf|] eqn:Hpf;
    [| apply findFirst_None in Hpf; contradiction].
  rewrite (addPosition_fresh env1 user id (PositionBody.mk symbol s1 p1) db pf Hpf Hnone).
  simpl. unfold addPosition. simpl.
  replace (portfolio_findFirst id user
             (mkStore (portfolios db)
                (<[(id, symbol) :=
                     Position.mk (newId env1) id symbol s1 p1 p1 (s1 * p1) (s1 * p1)
                       0 0 0]> (positions db))
                (transactions db))) with (Some pf) by (symmetry; exact Hpf).
  rewrite lookup_insert_eq. simpl. rewrite lookup_insert_eq. reflexivity.
Qed.

Lemma addPosition_twice_witness :
  owner Sample.store1 "p1" = Some "u1"
  ∧ positions Sample.store1 !! ("p1", "AAPL") = None
  ∧ positions Sample.store3 !! ("p1", "AAPL")
    = Some (Position.mk "x1" "p1" "AAPL" (50 + 50) 0 150 (50 * 150) (50 * 150) 0 0 0).
Proof.
  assert (H1 : owner Sample.store1 "p1" = Some "u1") by (vm_compute; reflexivity).
  assert (H2 : positions Sample.store1 !! ("p1", "AAPL") = None)
    by (vm_compute; reflexivity).
  split; [exact H1 |]. split; [exact H2 |].
  exact (addPosition_twice (mkEnv "x1" 2) (mkEnv "x2" 3) "u1" "p1" "AAPL"
           50 150 50 160 Sample.store1 H1 H2).
Defined.

(** ** Ordering and paging of the list queries *)

#[global] Instance date_desc_transitive : Transitive date_desc.
Proof. intros a b c. unfold date_desc. lia. Qed.

#[global] Instance date_desc_total : Total date_desc.
Proof. intros a b. unfold date_desc. lia. Qed.

#[global] Instance createdAt_desc_transitive : Transitive createdAt_desc.
Proof. intros a b c. unfold createdAt_desc. lia. Qed.

#[global] Instance createdAt_desc_total : Total createdAt_desc.
Proof. intros a b. unfold createdAt_desc. lia. Qed.

#[global] Instance marketValue_desc_transitive : Transitive marketValue_desc.
Proof. intros a b c. unfold marketValue_desc. intros H1 H2. lra. Qed.

#[global] Instance marketValue_desc_total : Total marketValue_desc.
Proof.
  intros a b. unfold marketValue_desc.
  destruct (Qlt_le_dec (Position.marketValue a) (Position.marketValue b));
    [right; lra | left; assumption].
Qed.

Lemma StronglySorted_sublist {A} (R : relation A) (l1 l2 : list A) :
  l1 `sublist_of` l2 → StronglySorted R l2 → StronglySorted R l1.
Proof.
  induction 1 as [| x l1 l2 Hsub IH | x l1 l2 Hsub IH]; intros Hs.
  - constructor.
  - apply StronglySorted_inv in Hs as [Hs Hx]. constructor; [auto |].
    apply Forall_forall. intros y Hy.
    rewrite Forall_forall in Hx. apply Hx.
    apply (elem_of_sublist _ _ _ Hy Hsub).
  - apply StronglySorted_inv in Hs as [Hs _]. auto.
Qed.

Lemma transaction_where_elem id user db t :
  t ∈ transaction_where id user db ↔
  t ∈ transactions db ∧ Transaction.portfolioId t = id ∧ owner db id = Some user.
Proof.
  unfold transaction_where. rewrite !list_elem_of_filter.
  unfold transactionOf. split.
  - intros (Hid & Ho & Ht). rewrite Hid in Ho. auto.
  - intros (Ht & Hid & Ho). rewrite Hid. auto.
Qed.

(** X8: the page getTransactions returns holds at most [limit] transactions
    (50 when no limit is given), newest first, and each of them is a recorded
    transaction of that portfolio, which belongs to the caller. *)
Theorem getTransactions_page user id limit offset db :
  ∃ page,
    getTransactions user id limit offset db
    = (db, Sent 200 (mkResponse true (DTransactionList page)
                                "Transactions retrieved successfully"))
    ∧ (length page ≤ default 50 limit)%nat
    ∧ StronglySorted date_desc page
    ∧ ∀ t, t ∈ page →
        t ∈ transactions db ∧ Transaction.portfolioId t = id
        ∧ owner db id = Some user.
Proof.
  eexists. split; [reflexivity |]. split; [| split].
  - rewrite length_take. lia.
  - eapply StronglySorted_sublist; [apply sublist_take |].
    eapply StronglySorted_sublist; [apply sublist_drop |].
    apply StronglySorted_merge_sort; apply _.
  - intros t Ht. apply subseteq_take, subseteq_drop in Ht.
    rewrite merge_sort_Permutation in Ht.
    apply transaction_where_elem. exact Ht.
Qed.

Lemma transaction_where_owned id user db :
  owner db id = Some user →
  transaction_where id user db = transactions_include id db.
Proof.
  intros Hown. unfold transaction_where, transactions_include.
  rewrite list_filter_filter. apply list_filter_ext_in.
  intros t _. unfold transactionOf. split; [tauto |].
  intros Hid. split; [exact Hid |]. rewrite Hid. exact Hown.
Qed.

Lemma NoDup_fmap_eq {A B} (f : A → B) (l : list A) (a b : A) :
  NoDup (f <$> l) → a ∈ l → b ∈ l → f a = f b → a = b.
Proof.
  induction l as [| x l IH]; intros Hnd Ha Hb Hf; [inversion Ha |].
  rewrite fmap_cons in Hnd. apply NoDup_cons in Hnd as [Hx Hnd].
  apply elem_of_cons in Ha as [-> | Ha]; apply elem_of_cons in Hb as [-> | Hb].
  - reflexivity.
  - exfalso. apply Hx. rewrite Hf. apply list_elem_of_fmap. eauto.
  - exfalso. apply Hx. rewrite <- Hf. apply list_elem_of_fmap. eauto.
  - auto.
Qed.

(** Two listings of the same rows, both sorted, are equal when the order
    separates the rows. *)
Lemma StronglySorted_unique_on {A} (R : relation A) (l1 l2 : list A) :
  (∀ a b, a ∈ l1 → b ∈ l1 → R a b → R b a → a = b) →
  StronglySorted R l1 → StronglySorted R l2 → l1 ≡ₚ l2 → l1 = l2.
Proof.
  revert l2. induction l1 as [| a l1 IH]; intros l2 Hanti Hs1 Hs2 Hp.
  - symmetry. apply Permutation_nil. exact Hp.
  - destruct l2 as [| b l2].
    { symmetry in Hp. apply Permutation_nil in Hp. discriminate Hp. }
    apply StronglySorted_inv in Hs1 as [Hs1 Ha].
    apply StronglySorted_inv in Hs2 as [Hs2 Hb].
    rewrite Forall_forall in Ha, Hb.
    assert (Hab : a = b).
    { assert (Hain : a ∈ b :: l2) by (rewrite <- Hp; left).
      assert (Hbin : b ∈ a :: l1) by (rewrite Hp; left).
      apply elem_of_cons in Hain as [| Hain]; [assumption |].
      pose proof Hbin as Hbin'.
      apply elem_of_cons in Hbin' as [| Hbin']; [congruence |].
      apply Hanti; [left | exact Hbin | auto | auto]. }
    subst b. f_equal. apply IH; [| assumption | assumption |].
    + intros x y Hx Hy. apply Hanti; right; assumption.
    + apply (Permutation_cons_inv Hp).
Qed.

Lemma concat_pages {A} (n k : nat) (l : list A) :
  concat ((λ i, take n (drop (i * n) l)) <$> seq 0 k) = take (k * n) l.
Proof.
  induction k as [| k IH]; [reflexivity |].
  rewrite seq_S, fmap_app, concat_app, IH. simpl. rewrite app_nil_r.
  rewrite take_take_drop. f_equal. lia.
Qed.

(** X9: paging through getTransactions neither skips nor repeats.  When the
    transactions of the caller's portfolio have distinct dates, the k pages
    of size n at the offsets 0, n, ..., (k-1)n, put together, are the first
    k*n entries of the listing of those transactions by date descending
    (there is only one such listing); once k*n reaches their number the pages
    hold exactly the transactions of the portfolio, each once. *)
Theorem getTransactions_pages_cover user id n k db :
  owner db id = Some user →
  NoDup (Transaction.date <$> transactions_include id db) →
  ∃ pages : list (list Transaction.t),
    length pages = k
    ∧ (∀ i page, pages !! i = Some page →
         getTransactions user id (Some n) (Some (i * n)%nat) db
         = (db, Sent 200 (mkResponse true (DTransactionList page)
                                     "Transactions retrieved successfully")))
    ∧ (∀ listing, listing ≡ₚ transactions_include id db →
         StronglySorted date_desc listing →
         concat pages = take (k * n) listing)
    ∧ ((length (transactions_include id db) ≤ k * n)%nat →
         concat pages ≡ₚ transactions_include id db).
Proof.
  intros Hown Hnd.
  set (sorted := merge_sort date_desc (transactions_include id db)).
  assert (Hperm : sorted ≡ₚ transactions_include id db)
    by apply merge_sort_Permutation.
  exists ((λ i, take n (drop (i * n) sorted)) <$> seq 0 k).
  split; [rewrite length_fmap, length_seq; reflexivity |].
  split; [| split].
  - intros i page Hi. rewrite list_lookup_fmap in Hi.
    apply fmap_Some in Hi as (j & Hj & ->).
    apply lookup_seq in Hj as [-> _].
    unfold getTransactions. rewrite (transaction_where_owned _ _ _ Hown).
    reflexivity.
  - intros listing Hl Hs. rewrite concat_pages. f_equal.
    apply (StronglySorted_unique_on date_desc).
    + intros t t' Ht Ht' H1 H2. unfold date_desc in H1, H2.
      rewrite Hperm in Ht, Ht'.
      apply (NoDup_fmap_eq Transaction.date _ _ _ Hnd Ht Ht'). lia.
    + apply StronglySorted_merge_sort; apply _.
    + exact Hs.
    + rewrite Hperm, Hl. reflexivity.
  - intros Hlen. rewrite concat_pages, take_ge; [exact Hperm |].
    rewrite Hperm. exact Hlen.
Qed.

Lemma getTransactions_pages_cover_witness :
  let calls : list Call :=
    [ (mkEnv "t1" 4, "u1", AddTransaction "p1" Sample.buy);
      (mkEnv "t2" 6, "u1", AddTransaction "p1" Sample.sell);
      (mkEnv "t3" 5, "u1", AddTransaction "p1" Sample.sell60) ] in
  let db := runCalls calls Sample.store2other in
  owner db "p1" = Some "u1"
  ∧ NoDup (Transaction.date <$> transactions_include "p1" db)
  ∧ length (transactions db) = 4%nat
  ∧ ∃ pages : list (list Transaction.t),
      length pages = 2%nat
      ∧ (∀ i page, pages !! i = Some page →
           getTransactions "u1" "p1" (Some 2%nat) (Some (i * 2)%nat) db
           = (db, Sent 200 (mkResponse true (DTransactionList page)
                                       "Transactions retrieved successfully")))
      ∧ concat pages ≡ₚ transactions_include "p1" db
      ∧ length (concat pages) = 3%nat.
Proof.
  intros calls db.
  assert (H1 : owner db "p1" = Some "u1") by (vm_compute; reflexivity).
  assert (H2 : NoDup (Transaction.date <$> transactions_include "p1" db)).
  { apply (bool_decide_unpack (NoDup (Transaction.date <$> transactions_include "p1" db))).
    vm_compute. exact I. }
  split; [exact H1 |]. split; [exact H2 |]. split; [vm_compute; reflexivity |].
  destruct (getTransactions_pages_cover "u1" "p1" 2 2 db H1 H2)
    as (pages & Hlen & Hpage & _ & Hcover).
  assert (H3 : (length (transactions_include "p1" db) ≤ 2 * 2)%nat)
    by (vm_compute; lia).
  exists pages. split; [exact Hlen |]. split; [exact Hpage |].
  split; [exact (Hcover H3) |].
  rewrite (Hcover H3). vm_compute. reflexivity.
Defined.



(** X11: getPortfolios lists exactly the caller's portfolios, newest first;
    each entry carries a position count equal to the number of positions it
    includes. *)
Theorem getPortfolios_lists_own user db :
  ∃ l,
    getPortfolios user db
    = (db, Sent 200 (mkResponse true (DPortfolioList l)
                                "Portfolios retrieved successfully"))
    ∧ StronglySorted createdAt_desc (l.*1.*1)
    ∧ (∀ p, p ∈ l.*1.*1 ↔
            ∃ k, portfolios db !! k = Some p ∧ Portfolio.userId p = user)
    ∧ length l = size (filter (ownedBy user) (portfolios db))
    ∧ Forall (λ e, e.2.1 = length e.1.2) l.
Proof.
  eexists. split; [reflexivity |].
  assert (Hfst : ∀ l : list Portfolio.t,
    ((λ p, let ps := positions_include (Portfolio.id p) db in
           (p, ps, (length ps, length (transactions_include (Portfolio.id p) db))))
       <$> l).*1.*1 = l).
  { intros l. rewrite <- !list_fmap_compose. induction l as [| a l IH];
      [reflexivity | simpl; f_equal; exact IH]. }
  rewrite Hfst. split; [apply StronglySorted_merge_sort; apply _ |].
  split; [| split].
  - intros p. unfold portfolio_findMany. rewrite merge_sort_Permutation, rows_elem.
    setoid_rewrite map_lookup_filter_Some. reflexivity.
  - rewrite length_fmap. unfold portfolio_findMany.
    rewrite merge_sort_Permutation. unfold rows.
    rewrite length_fmap, length_map_to_list. reflexivity.
  - apply Forall_fmap, Forall_forall. intros p _. reflexivity.
Qed.

(** X12: for a portfolio of the caller, getPositions returns exactly the
    positions stored for that portfolio, largest market value first. *)
Theorem getPositions_sorted user id db :
  owner db id = Some user →
  ∃ l,
    getPositions user id db
    = (db, Sent 200 (mkResponse true (DPositionList l)
                                "Positions retrieved successfully"))
    ∧ StronglySorted marketValue_desc l
    ∧ (∀ p, p ∈ l ↔ ∃ symbol, positions db !! (id, symbol) = Some p)
    ∧ length l = size (filter (inPortfolio id) (positions db)).
Proof.
  intros Hown. eexists. split; [reflexivity |].
  split; [apply StronglySorted_merge_sort; apply _ |].
  assert (Hw : position_where id user db = filter (inPortfolio id) (positions db)).
  { unfold position_where. apply map_filter_filter_l. intros k x _ Hin.
    unfold inPortfolio, positionOf in *. simpl in *. subst. exact Hown. }
  split.
  - intros p. rewrite merge_sort_Permutation, rows_elem, Hw. split.
    + intros [[pid symbol] [Hk Hin]%map_lookup_filter_Some].
      unfold inPortfolio in Hin. simpl in Hin. subst. eauto.
    + intros [symbol Hk]. exists (id, symbol).
      apply map_lookup_filter_Some. split; [exact Hk | reflexivity].
  - rewrite merge_sort_Permutation, Hw. unfold rows.
    rewrite length_fmap, length_map_to_list. reflexivity.
Qed.

Lemma getPositions_sorted_witness :
  let db := (addPosition (mkEnv "x9" 9) "u1" "p1" (PositionBody.mk "MSFT" 100 300)
               Sample.store2).1 in
  owner db "p1" = Some "u1"
  ∧ ∃ l,
      getPositions "u1" "p1" db
      = (db, Sent 200 (mkResponse true (DPositionList l)
                                  "Positions retrieved successfully"))
      ∧ StronglySorted marketValue_desc l
      ∧ (∀ p, p ∈ l ↔ ∃ symbol, positions db !! ("p1", symbol) = Some p)
      ∧ length l = size (filter (inPortfolio "p1") (positions db)).
Proof.
  intros db.
  assert (H1 : owner db "p1" = Some "u1") by (vm_compute; reflexivity).
  split; [exact H1 |].
  exact (getPositions_sorted "u1" "p1" db H1).
Defined.

(** ** What no handler does *)




Lemma handle_placeholderRow env user op db :
  (∀ k p, positions db !! k = Some p → placeholderRow k p) →
  ∀ k p, positions (handle env user op db).1 !! k = Some p → placeholderRow k p.
Proof.
  intros Hz. destruct op; simpl;
    unfold getPortfolios, getPortfolio, createPortfolio, updatePortfolio,
      deletePortfolio, getPositions, addPosition, updatePosition, removePosition,
      getTransactions, addTransaction;
    repeat case_match; simplify_eq; simpl; try exact Hz.
  all: intros k p Hk; simpl in Hk.
  - apply map_lookup_filter_Some in Hk as [Hk _]. eauto.
  - apply lookup_insert_Some in Hk as [[<- <-] | [_ Hk]]; [| eauto].
    match goal with
    | H : positions db !! _ = Some _ |- _ => apply Hz in H
    end.
    unfold placeholderRow in *. simpl in *. tauto.
  - apply lookup_insert_Some in Hk as [[<- <-] | [_ Hk]]; [| eauto].
    unfold placeholderRow. simpl. repeat split.
  - apply lookup_insert_Some in Hk as [[<- <-] | [_ Hk]]; [| eauto].
    match goal with
    | H : position_where _ _ _ !! _ = Some _ |- _ =>
        apply position_where_lookup in H as (H & _ & _); apply Hz in H
    end.
    unfold placeholderRow in *. simpl in *. tauto.
  - apply lookup_delete_Some in Hk as [_ Hk]. eauto.
Qed.

(** X14: whatever calls are made on an empty store, every stored position
    has weight 0, gain 0, gainPercent 0 and a market value equal to its cost
    basis, and sits under the key made of its own portfolioId and symbol: no
    handler ever recomputes these columns. *)
Theorem positions_keep_placeholders calls k p :
  positions (runCalls calls emptyStore) !! k = Some p → placeholderRow k p.
Proof.
  assert (H : ∀ db,
    (∀ k p, positions db !! k = Some p → placeholderRow k p) →
    ∀ k p, positions (runCalls calls db) !! k = Some p → placeholderRow k p).
  { unfold runCalls. induction calls as [| c calls IH]; intros db Hz; simpl;
      [exact Hz |].
    apply IH, handle_placeholderRow, Hz. }
  apply H. intros k' p' Hk. simpl in Hk. rewrite lookup_empty in Hk. discriminate.
Qed.

Lemma positions_keep_placeholders_witness :
  let calls :=
    [(mkEnv "p1" 1, "u1", CreatePortfolio "Main");
     (mkEnv "x1" 2, "u1", AddPosition "p1" (PositionBody.mk "AAPL" 50 150));
     (mkEnv "x2" 3, "u1", AddPosition "p1" (PositionBody.mk "AAPL" 50 160));
     (mkEnv "x3" 4, "u1", UpdatePosition "p1" "AAPL" 10 170)] in
  let p := Position.mk "x1" "p1" "AAPL" 10 170 150 (50 * 150) (50 * 150) 0 0 0 in
  positions (runCalls calls emptyStore) !! ("p1", "AAPL") = Some p
  ∧ placeholderRow ("p1", "AAPL") p.
Proof.
  intros calls p.
  assert (H : positions (runCalls calls emptyStore) !! ("p1", "AAPL") = Some p)
    by (vm_compute; reflexivity).
  split; [exact H |].
  exact (positions_keep_placeholders calls ("p1", "AAPL") p H).
Defined.

(** * The error middleware *)

(** X15: an error made by createError comes out of the error middleware
    with the status code and message it was made with (for a non-empty
    message and a non-zero status code); the stack is sent only in
    development. *)
Theorem errorHandler_createError nodeEnv stack message statusCode :
  message ≠ "" → statusCode ≠ 0%nat →
  ErrorHandler.errorHandler nodeEnv (ErrorHandler.createError stack message statusCode)
  = Some (statusCode,
          ErrorHandler.mkErrorBody false DNull message
            (if bool_decide (nodeEnv = Some "development") then Some stack else None)).
Proof.
  intros Hm Hc. unfold ErrorHandler.errorHandler, ErrorHandler.createError. simpl.
  destruct (String.eqb_spec message ""); [contradiction |].
  destruct statusCode; [contradiction | reflexivity].
Qed.

Lemma errorHandler_createError_witness :
  "Invalid credentials" ≠ "" ∧ 401%nat ≠ 0%nat
  ∧ ErrorHandler.errorHandler (Some "production")
      (ErrorHandler.createError "at login" "Invalid credentials" 401)
    = Some (401%nat,
            ErrorHandler.mkErrorBody false DNull "Invalid credentials" None).
Proof.
  assert (H1 : "Invalid credentials" ≠ "") by discriminate.
  assert (H2 : 401%nat ≠ 0%nat) by discriminate.
  split; [exact H1 |]. split; [exact H2 |].
  exact (errorHandler_createError (Some "production") "at login"
           "Invalid credentials" 401 H1 H2).
Defined.

(** X16: whatever error reaches the middleware, the body it sends has
    success false, data null and a non-empty error text; the status is never
    0 and is 400, 401, 404, 500 or the status code the error carries; and a
    stack trace is sent only when NODE_ENV is development. *)
Theorem errorHandler_response nodeEnv err status body :
  ErrorHandler.errorHandler nodeEnv err = Some (status, body) →
  ErrorHandler.success body = false
  ∧ ErrorHandler.data body = DNull
  ∧ ErrorHandler.error body ≠ ""
  ∧ status ≠ 0%nat
  ∧ (status ∈ [400; 401; 404; 500]%nat ∨ ErrorHandler.statusCode err = Some status)
  ∧ (∀ s, ErrorHandler.bodyMessage body = Some s →
          nodeEnv = Some "development" ∧ ErrorHandler.stack err = Some s).
Proof.
  unfold ErrorHandler.errorHandler. intros H.
  apply bind_Some in H as (error & Herr & H).
  inversion H as [[Hst Hbody]]. clear H Hbody.
  cbn [ErrorHandler.success ErrorHandler.data ErrorHandler.error
       ErrorHandler.bodyMessage].
  split; [reflexivity |]. split; [reflexivity |].
  split; [| split; [| split]].
  - match goal with
    | |- (if String.eqb ?c "" then _ else _) ≠ _ =>
        destruct (String.eqb_spec c ""); [discriminate | assumption]
    end.
  - match goal with
    | |- match ?x with _ => _ end ≠ _ => destruct x as [[| n] |]; discriminate
    end.
  - assert (Hfirst : error.1 = Some 400%nat ∨ error.1 = Some 404%nat
                     ∨ error.1 = ErrorHandler.statusCode err).
    { destruct (String.eqb (ErrorHandler.name err) "ValidationError").
      - apply fmap_Some in Herr as (l & _ & ->). auto.
      - injection Herr as <-. repeat case_match; simpl; auto. }
    match goal with
    | |- match ?x with _ => _ end ∈ _ ∨ _ =>
        assert (Hlast : x = Some 400%nat ∨ x = Some 401%nat ∨ x = Some 404%nat
                        ∨ x = ErrorHandler.statusCode err)
          by (clear Hst; destruct error as [e1 e2]; simpl in Hfirst;
              repeat match goal with
                     | |- context [if ?c then _ else _] => destruct c
                     end; simpl; intuition congruence);
        destruct x as [[| n] |]
    end; try (left; set_solver).
    destruct Hlast as [Hl | [Hl | [Hl | Hl]]];
      try (injection Hl as ->; left; set_solver).
    right. symmetry. exact Hl.
  - intros s Hs. case_bool_decide; [| discriminate]. auto.
Qed.

Lemma errorHandler_response_witness :
  let err := ErrorHandler.mkError "PrismaClientKnownRequestError" "Unique constraint"
               (Some "trace") None None (Some (ErrorHandler.CodeString "P2002")) None in
  let body := ErrorHandler.mkErrorBody false DNull "Duplicate field value entered" None in
  ErrorHandler.errorHandler None err = Some (400%nat, body)
  ∧ ErrorHandler.success body = false
  ∧ ErrorHandler.error body ≠ ""
  ∧ 400%nat ≠ 0%nat.
Proof.
  intros err body.
  assert (H : ErrorHandler.errorHandler None err = Some (400%nat, body))
    by (vm_compute; reflexivity).
  split; [exact H |].
  pose proof (errorHandler_response None err 400 body H) as (H1 & _ & H3 & H4 & _).
  repeat split; assumption.
Defined.

Lemma mapM_valMessage_None (l : list ErrorHandler.ErrorValue) :
  mapM ErrorHandler.valMessage l = None ↔ ErrorHandler.Nullish ∈ l.
Proof.
  rewrite eq_None_not_Some, mapM_is_Some, Forall_forall. split.
  - intros Hnot. destruct (decide (ErrorHandler.Nullish ∈ l)) as [| Hnin];
      [assumption |].
    exfalso. apply Hnot. intros [| m] Hx; [contradiction | simpl; eauto].
  - intros Hin Hall. apply Hall in Hin. simpl in Hin. destruct Hin. discriminate.
Qed.

(** X17: the middleware itself throws, and sends nothing, exactly when the
    error is named ValidationError and either has no [errors] property or one
    of the values of [errors] is null or undefined. *)
Theorem errorHandler_fails_iff nodeEnv err :
  ErrorHandler.errorHandler nodeEnv err = None ↔
  ErrorHandler.name err = "ValidationError"
  ∧ (ErrorHandler.errors err = None
     ∨ ∃ l, ErrorHandler.errors err = Some l ∧ ErrorHandler.Nullish ∈ l).
Proof.
  unfold ErrorHandler.errorHandler. rewrite bind_None. split.
  - intros [Hnone | (x & _ & Hx)]; [| discriminate].
    destruct (String.eqb_spec (ErrorHandler.name err) "ValidationError");
      [| discriminate].
    split; [assumption |].
    apply fmap_None in Hnone.
    destruct (ErrorHandler.errors err) as [l |]; [| auto].
    right. exists l. split; [reflexivity |].
    apply mapM_valMessage_None. exact Hnone.
  - intros [Hn He]. left. rewrite Hn. simpl.
    apply fmap_None.
    destruct He as [-> | (l & -> & Hl)]; [reflexivity |].
    simpl. apply mapM_valMessage_None. exact Hl.
Qed.

(** X18: the not-found failures of the controller are plain Errors
    without a status code, so they reach the client as 500, not 404: for a
    portfolio that is missing or belongs to another user, every operation on
    it that checks the portfolio answers 500 with "Portfolio not found" (on
    its positions: "Position not found") and leaves the store unchanged; and
    any plain Error thrown in a handler is answered with 500 and its
    message. *)
Theorem not_found_answered_500 nodeEnv stack typeErrorMessage env user id db :
  owner db id ≠ Some (Auth.id user) →
  let served := λ op, serve nodeEnv stack typeErrorMessage (Some user) env op db in
  let failure := λ msg : string,
    Some (500%nat,
          inr (B := ErrorHandler.ErrorBody) (A := ApiResponse)
            (ErrorHandler.mkErrorBody false DNull msg
               (if bool_decide (nodeEnv = Some "development")
                then Some stack else None))) in
  served (GetPortfolio id) = (db, failure "Portfolio not found")
  ∧ (∀ name, served (UpdatePortfolio id name) = (db, failure "Portfolio not found"))
  ∧ served (DeletePortfolio id) = (db, failure "Portfolio not found")
  ∧ (∀ body, served (AddPosition id body) = (db, failure "Portfolio not found"))
  ∧ (∀ body, served (AddTransaction id body) = (db, failure "Portfolio not found"))
  ∧ (∀ symbol shares averagePrice,
       served (UpdatePosition id symbol shares averagePrice)
       = (db, failure "Position not found"))
  ∧ (∀ symbol, served (RemovePosition id symbol) = (db, failure "Position not found"))
  ∧ (∀ msg, msg ≠ "" → answer nodeEnv stack (Thrown msg) = failure msg).
Proof.
  intros Hown served failure.
  assert (Hpf : portfolio_findFirst id (Auth.id user) db = None)
    by (apply findFirst_None; exact Hown).
  assert (Hpos : ∀ symbol, position_where id (Auth.id user) db !! (id, symbol) = None).
  { intros symbol. rewrite (position_where_not_owned _ _ _ Hown). apply lookup_empty. }
  unfold served, serve. simpl.
  unfold getPortfolio, updatePortfolio, deletePortfolio, addPosition, addTransaction,
    updatePosition, removePosition.
  rewrite Hpf. simpl.
  repeat split; intros; rewrite ?Hpos; try reflexivity.
  unfold failure, answer, ErrorHandler.errorHandler. simpl.
  destruct (String.eqb_spec msg ""); [contradiction | reflexivity].
Qed.

Lemma not_found_answered_500_witness :
  let env := mkEnv "x9" 9 in
  let u1 := Auth.mkUser "u1" (Some "user") in
  owner Sample.store2other "p2" ≠ Some (Auth.id u1)
  ∧ is_Some (portfolios Sample.store2other !! "p2")
  ∧ serve (Some "production") "trace" "Cannot read properties of undefined"
          (Some u1) env (GetPortfolio "p2") Sample.store2other
    = (Sample.store2other,
       Some (500%nat,
             inr (ErrorHandler.mkErrorBody false DNull "Portfolio not found" None)))
  ∧ serve (Some "production") "trace" "Cannot read properties of undefined"
          (Some u1) env (RemovePosition "p2" "TSLA") Sample.store2other
    = (Sample.store2other,
       Some (500%nat,
             inr (ErrorHandler.mkErrorBody false DNull "Position not found" None))).
Proof.
  intros env u1.
  assert (H1 : owner Sample.store2other "p2" ≠ Some (Auth.id u1))
    by (vm_compute; discriminate).
  split; [exact H1 |]. split; [vm_compute; eexists; reflexivity |].
  pose proof (not_found_answered_500 (Some "production") "trace"
                "Cannot read properties of undefined" env u1 "p2"
                Sample.store2other H1) as (Ha & _ & _ & _ & _ & _ & Hb & _).
  split; [exact Ha | exact (Hb "TSLA")].
Defined.

(** * Authentication *)

Lemma bearerToken_Bearer token :
  Auth.bearerToken (Some ("Bearer " +:+ token)) = Some token.
Proof. destruct token; reflexivity. Qed.

Lemma own_token_cases
    (sign : Auth.Payload → string → string → string)
    (verify : string → string → Auth.Verified)
    (JWT_SECRET : string) (JWT_EXPIRES_IN : option string) (stack userId : string)
    (u : Auth.User) :
  (∀ uid s e,
     verify (sign (Auth.mkPayload (Some uid) None) s e) s
     = Auth.Decoded (Auth.mkPayload (Some uid) None)
     ∨ ∃ err msg, verify (sign (Auth.mkPayload (Some uid) None) s e) s
                  = Auth.VerifyThrows err msg) →
  Auth.authenticate verify JWT_SECRET stack
    (Some ("Bearer " +:+ Auth.generateToken sign JWT_SECRET JWT_EXPIRES_IN userId))
  ≠ Auth.Next (Some u)
  ∧ Auth.optionalAuth verify JWT_SECRET
      (Some ("Bearer " +:+ Auth.generateToken sign JWT_SECRET JWT_EXPIRES_IN userId))
    ≠ Auth.Next (Some u).
Proof.
  intros Hjwt.
  unfold Auth.authenticate, Auth.optionalAuth. rewrite bearerToken_Bearer.
  unfold Auth.generateToken.
  destruct (Hjwt userId JWT_SECRET (Auth.orString JWT_EXPIRES_IN "7d"))
    as [Hv | (err & msg & Hv)];
    destruct (sign _ _ _); try (split; discriminate);
    rewrite Hv; simpl; split; discriminate.
Qed.

(** X19: the access tokens this application issues never authenticate
    anyone.  generateToken signs the payload { userId }, while authenticate
    and optionalAuth take [decoded.user] as the request's user: for a verify
    that returns what was signed (or throws), neither middleware ever
    continues with a user on the request. *)
Theorem own_token_never_authenticates
    (sign : Auth.Payload → string → string → string)
    (verify : string → string → Auth.Verified)
    (JWT_SECRET : string) (JWT_EXPIRES_IN : option string) (stack userId : string)
    (u : Auth.User) :
  (∀ uid s e,
     verify (sign (Auth.mkPayload (Some uid) None) s e) s
     = Auth.Decoded (Auth.mkPayload (Some uid) None)
     ∨ ∃ err msg, verify (sign (Auth.mkPayload (Some uid) None) s e) s
                  = Auth.VerifyThrows err msg) →
  let authorization :=
    Some ("Bearer " +:+ Auth.generateToken sign JWT_SECRET JWT_EXPIRES_IN userId) in
  Auth.authenticate verify JWT_SECRET stack authorization ≠ Auth.Next (Some u)
  ∧ Auth.optionalAuth verify JWT_SECRET authorization ≠ Auth.Next (Some u).
Proof.
  intros Hjwt authorization. subst authorization.
  exact (own_token_cases sign verify JWT_SECRET JWT_EXPIRES_IN stack userId u Hjwt).
Qed.

Lemma own_token_never_authenticates_witness :
  let sign := λ (p : Auth.Payload) (_ _ : string), "t:" +:+ default "" (Auth.userId p) in
  let verify := λ (t _ : string),
    Auth.Decoded (Auth.mkPayload (Some (Auth.dropChars 2 t)) None) in
  let authorization := Some ("Bearer " +:+ Auth.generateToken sign "secret" None "u1") in
  (∀ uid s e,
     verify (sign (Auth.mkPayload (Some uid) None) s e) s
     = Auth.Decoded (Auth.mkPayload (Some uid) None)
     ∨ ∃ err msg, verify (sign (Auth.mkPayload (Some uid) None) s e) s
                  = Auth.VerifyThrows err msg)
  ∧ Auth.authenticate verify "secret" "trace" authorization = Auth.Next None
  ∧ Auth.authenticate verify "secret" "trace" authorization
    ≠ Auth.Next (Some (Auth.mkUser "u1" None)).
Proof.
  intros sign verify authorization.
  assert (H : ∀ uid s e,
     verify (sign (Auth.mkPayload (Some uid) None) s e) s
     = Auth.Decoded (Auth.mkPayload (Some uid) None)
     ∨ ∃ err msg, verify (sign (Auth.mkPayload (Some uid) None) s e) s
                  = Auth.VerifyThrows err msg)
    by (intros uid s e; left; reflexivity).
  split; [exact H |]. split; [reflexivity |].
  exact (proj1 (own_token_never_authenticates sign verify "secret" None "trace" "u1"
                  (Auth.mkUser "u1" None) H)).
Defined.

(** X20: consequently a request that carries such a token never reaches the
    store: whatever authenticate leaves on the request, the controller
    operation behind it changes nothing and the client is sent status 500. *)
Theorem own_token_request_fails
    (sign : Auth.Payload → string → string → string)
    (verify : string → string → Auth.Verified)
    (JWT_SECRET : string) (JWT_EXPIRES_IN nodeEnv : option string)
    (stack typeErrorMessage userId : string)
    (reqUser : option Auth.User) (env : Env) (op : Op) (db : Store) :
  (∀ uid s e,
     verify (sign (Auth.mkPayload (Some uid) None) s e) s
     = Auth.Decoded (Auth.mkPayload (Some uid) None)
     ∨ ∃ err msg, verify (sign (Auth.mkPayload (Some uid) None) s e) s
                  = Auth.VerifyThrows err msg) →
  Auth.authenticate verify JWT_SECRET stack
    (Some ("Bearer " +:+ Auth.generateToken sign JWT_SECRET JWT_EXPIRES_IN userId))
  = Auth.Next reqUser →
  ∃ body,
    serve nodeEnv stack typeErrorMessage reqUser env op db
    = (db, Some (500%nat, inr body))
    ∧ ErrorHandler.success body = false.
Proof.
  intros Hjwt Hauth.
  destruct reqUser as [u |].
  - exfalso.
    exact (proj1 (own_token_cases sign verify JWT_SECRET JWT_EXPIRES_IN
                    stack userId u Hjwt) Hauth).
  - eexists. split; reflexivity.
Qed.

Lemma own_token_request_fails_witness :
  let sign := λ (p : Auth.Payload) (_ _ : string), "t:" +:+ default "" (Auth.userId p) in
  let verify := λ (t _ : string),
    Auth.Decoded (Auth.mkPayload (Some (Auth.dropChars 2 t)) None) in
  let authorization := Some ("Bearer " +:+ Auth.generateToken sign "secret" None "u1") in
  let op := AddTransaction "p1" Sample.buy in
  (∀ uid s e,
     verify (sign (Auth.mkPayload (Some uid) None) s e) s
     = Auth.Decoded (Auth.mkPayload (Some uid) None)
     ∨ ∃ err msg, verify (sign (Auth.mkPayload (Some uid) None) s e) s
                  = Auth.VerifyThrows err msg)
  ∧ Auth.authenticate verify "secret" "trace" authorization = Auth.Next None
  ∧ ∃ body,
      serve None "trace" "Cannot read properties of undefined" None Sample.env4 op
        Sample.store2
      = (Sample.store2, Some (500%nat, inr body))
      ∧ ErrorHandler.success body = false.
Proof.
  intros sign verify authorization op.
  assert (H : ∀ uid s e,
     verify (sign (Auth.mkPayload (Some uid) None) s e) s
     = Auth.Decoded (Auth.mkPayload (Some uid) None)
     ∨ ∃ err msg, verify (sign (Auth.mkPayload (Some uid) None) s e) s
                  = Auth.VerifyThrows err msg)
    by (intros uid s e; left; reflexivity).
  assert (H2 : Auth.authenticate verify "secret" "trace" authorization = Auth.Next None)
    by reflexivity.
  split; [exact H |]. split; [exact H2 |].
  exact (own_token_request_fails sign verify "secret" None None "trace"
           "Cannot read properties of undefined" "u1" None Sample.env4 op
           Sample.store2 H H2).
Defined.

(** X21: a request without a token (no Authorization header, an empty one,
    or just "Bearer ") is passed to the error middleware, which answers 401
    "Access denied. No token provided."; verify is not consulted. *)
Theorem authenticate_without_token
    (verify : string → string → Auth.Verified) (JWT_SECRET stack : string)
    (nodeEnv authorization : option string) :
  authorization = None ∨ authorization = Some "" ∨ authorization = Some "Bearer " →
  ∃ err,
    Auth.authenticate verify JWT_SECRET stack authorization = Auth.NextError err
    ∧ ErrorHandler.errorHandler nodeEnv err
      = Some (401%nat,
              ErrorHandler.mkErrorBody false DNull "Access denied. No token provided."
                (if bool_decide (nodeEnv = Some "development")
                 then Some stack else None)).
Proof.
  intros [-> | [-> | ->]]; eexists; split; reflexivity.
Qed.

Lemma authenticate_without_token_witness :
  let verify := λ (_ _ : string), Auth.VerifyThrows Auth.JsonWebTokenError "jwt malformed" in
  (Some "Bearer " = None ∨ Some "Bearer " = Some "" ∨ Some "Bearer " = Some "Bearer ")
  ∧ ∃ err,
      Auth.authenticate verify "secret" "trace" (Some "Bearer ") = Auth.NextError err
      ∧ ErrorHandler.errorHandler None err
        = Some (401%nat,
                ErrorHandler.mkErrorBody false DNull
                  "Access denied. No token provided." None).
Proof.
  intros verify.
  assert (H : Some "Bearer " = None ∨ Some "Bearer " = Some ""
              ∨ Some "Bearer " = Some "Bearer ") by (right; right; reflexivity).
  split; [exact H |].
  exact (authenticate_without_token verify "secret" "trace" None (Some "Bearer ") H).
Defined.

(** X22: every token that verify refuses is reported as "Invalid token."
    with status 401, an expired one included: TokenExpiredError is a
    JsonWebTokenError, so the first instanceof test already holds and
    authenticate never throws "Token expired.". *)
Theorem authenticate_refused_token
    (verify : string → string → Auth.Verified) (JWT_SECRET stack : string)
    (authorization : option string) (token : string) (e : Auth.VerifyError)
    (msg : string) :
  Auth.bearerToken authorization = Some token →
  token ≠ "" →
  verify token JWT_SECRET = Auth.VerifyThrows e msg →
  Auth.authenticate verify JWT_SECRET stack authorization
  = Auth.Throws (ErrorHandler.createError stack "Invalid token." 401)
  ∧ Auth.authenticate verify JWT_SECRET stack authorization
    ≠ Auth.Throws (ErrorHandler.createError stack "Token expired." 401).
Proof.
  intros Ht Hne Hv. unfold Auth.authenticate. rewrite Ht.
  destruct token; [contradiction |]. rewrite Hv. simpl.
  split; [reflexivity | discriminate].
Qed.

Lemma authenticate_refused_token_witness :
  let verify := λ (_ _ : string), Auth.VerifyThrows Auth.TokenExpiredError "jwt expired" in
  Auth.bearerToken (Some "Bearer abc") = Some "abc"
  ∧ "abc" ≠ ""
  ∧ verify "abc" "secret" = Auth.VerifyThrows Auth.TokenExpiredError "jwt expired"
  ∧ Auth.authenticate verify "secret" "trace" (Some "Bearer abc")
    = Auth.Throws (ErrorHandler.createError "trace" "Invalid token." 401).
Proof.
  intros verify.
  assert (H1 : Auth.bearerToken (Some "Bearer abc") = Some "abc") by reflexivity.
  assert (H2 : "abc" ≠ "") by discriminate.
  assert (H3 : verify "abc" "secret"
               = Auth.VerifyThrows Auth.TokenExpiredError "jwt expired") by reflexivity.
  split; [exact H1 |]. split; [exact H2 |]. split; [exact H3 |].
  exact (proj1 (authenticate_refused_token verify "secret" "trace" (Some "Bearer abc")
                  "abc" Auth.TokenExpiredError "jwt expired" H1 H2 H3)).
Defined.

(** * The questionnaire *)

Section Questionnaire.

Import RiskAssessment.

Lemma indexOfFrom_lookup (l : list string) (s : string) (i : Z) (k : nat) :
  NoDup l → l !! k = Some s → indexOfFrom i l s = (i + Z.of_nat k)%Z.
Proof.
  revert i k. induction l as [| y l IH]; intros i k Hnd Hk; [discriminate |].
  apply NoDup_cons in Hnd as [Hy Hnd]. destruct k as [| k]; simpl in *.
  - injection Hk as ->. rewrite String.eqb_refl. lia.
  - destruct (String.eqb_spec y s) as [-> |].
    + exfalso. apply Hy. eapply list_elem_of_lookup_2. exact Hk.
    + rewrite (IH _ k Hnd Hk). lia.
Qed.

Lemma indexOfFrom_bounds (l : list string) (s : string) (i : Z) :
  s ∈ l → (i ≤ indexOfFrom i l s < i + Z.of_nat (length l))%Z.
Proof.
  revert i. induction l as [| y l IH]; intros i Hs; [apply elem_of_nil in Hs; contradiction |].
  simpl. destruct (String.eqb_spec y s) as [-> |].
  - lia.
  - apply elem_of_cons in Hs as [-> | Hs]; [contradiction |].
    specialize (IH (i + 1)%Z Hs). lia.
Qed.

Lemma orElse_Some_0 (v : Z) : orElse (Some v) 0 = v.
Proof. unfold orElse. destruct (Z.eqb_spec v 0); congruence. Qed.

Lemma optionIndex_Some (q : RiskQuestion) (opts : list string) (s : string) :
  options q = Some opts → optionIndex q (AString s) = indexOfFrom 0 opts s.
Proof.
  intros Hopt. unfold optionIndex. rewrite Hopt.
  exact (orElse_Some_0 (indexOfFrom 0 opts s)).
Qed.

Lemma optionCount_Some (q : RiskQuestion) (opts : list string) :
  options q = Some opts → opts ≠ [] → optionCount q = Z.of_nat (length opts).
Proof.
  intros Hopt Hne. unfold optionCount. rewrite Hopt.
  change (orElse (Some (Z.of_nat (length opts))) 10 = Z.of_nat (length opts)).
  unfold orElse. destruct (Z.eqb_spec (Z.of_nat (length opts)) 0); [| reflexivity].
  destruct opts; [contradiction | simpl in *; lia].
Qed.

(** X23: on a multiple-choice question whose options are distinct, choosing
    the option listed at position k (counting from 0) adds (k+1) times the
    weight of the question to the total score. *)
Theorem option_contribution (q : RiskQuestion) (opts : list string) (k : nat)
    (s : string) :
  type q = multiple_choice →
  options q = Some opts →
  NoDup opts →
  opts !! k = Some s →
  optionIndex q (AString s) = Z.of_nat k
  ∧ contribution q (AString s) = Some (inject_Z (Z.of_nat k + 1) * weight q).
Proof.
  intros Hty Hopt Hnd Hk.
  assert (Hidx : optionIndex q (AString s) = Z.of_nat k).
  { rewrite (optionIndex_Some _ _ _ Hopt), (indexOfFrom_lookup _ _ _ _ Hnd Hk). lia. }
  split; [exact Hidx |].
  unfold contribution. rewrite Hty, Hidx. reflexivity.
Qed.

Lemma option_contribution_witness :
  let opts := ["Sell all investments immediately";
               "Sell some investments to reduce risk";
               "Hold and wait for recovery";
               "Buy more while prices are low"] in
  type Sample.question3 = multiple_choice
  ∧ options Sample.question3 = Some opts
  ∧ NoDup opts
  ∧ opts !! 2%nat = Some "Hold and wait for recovery"
  ∧ contribution Sample.question3 (AString "Hold and wait for recovery")
    = Some (inject_Z (Z.of_nat 2 + 1) * weight Sample.question3).
Proof.
  intros opts.
  assert (H1 : type Sample.question3 = multiple_choice) by reflexivity.
  assert (H2 : options Sample.question3 = Some opts) by reflexivity.
  assert (H3 : NoDup opts) by (apply (bool_decide_unpack (NoDup opts)); vm_compute; exact I).
  assert (H4 : opts !! 2%nat = Some "Hold and wait for recovery") by reflexivity.
  repeat (split; [assumption |]).
  exact (proj2 (option_contribution Sample.question3 opts 2
                  "Hold and wait for recovery" H1 H2 H3 H4)).
Defined.

(** What a valid answer adds, against what the question adds to maxScore. *)
Lemma contribution_bounds (q : RiskQuestion) (a : Answer) :
  0 < weight q →
  RiskAssessmentState.validAnswer q a →
  ∃ c, contribution q a = Some c
     ∧ weight q <= c
     ∧ c <= inject_Z (optionCount q) * weight q.
Proof.
  intros Hw Hv. unfold RiskAssessmentState.validAnswer in Hv.
  unfold contribution.
  destruct (type q) eqn:Hty.
  - destruct Hv as (opts & s & Hopt & -> & Hs).
    eexists. split; [reflexivity |].
    assert (Hne : opts ≠ []) by (intros ->; apply elem_of_nil in Hs; contradiction).
    rewrite (optionIndex_Some _ _ _ Hopt), (optionCount_Some _ _ Hopt Hne).
    pose proof (indexOfFrom_bounds opts s 0 Hs) as Hb.
    set (i := indexOfFrom 0 opts s) in *.
    assert (H1 : 1 <= inject_Z (i + 1)) by (rewrite <- (Zle_Qle 1); lia).
    assert (H2 : inject_Z (i + 1) <= inject_Z (Z.of_nat (length opts)))
      by (rewrite <- Zle_Qle; lia).
    split; nra.
  - destruct Hv as (Hopt & n & -> & Hn).
    eexists. split; [reflexivity |].
    assert (Hcount : optionCount q = 10%Z) by (unfold optionCount; rewrite Hopt; reflexivity).
    rewrite Hcount.
    assert (H1 : 1 <= inject_Z (Z.of_nat n)) by (rewrite <- (Zle_Qle 1); lia).
    assert (H2 : inject_Z (Z.of_nat n) <= inject_Z 10) by (rewrite <- Zle_Qle; lia).
    split; nra.
  - contradiction.
Qed.

Lemma scores_bounds (answers : gmap string Answer) (qs : list RiskQuestion)
    (t0 m0 : Q) :
  Forall (λ q, 0 < weight q) qs →
  (∀ q a, q ∈ qs → answers !! id q = Some a → RiskAssessmentState.validAnswer q a) →
  t0 <= m0 →
  ∃ t m, foldl (scoreStep answers) (Some (t0, m0)) qs = Some (t, m)
       ∧ t0 <= t ∧ t <= m
       ∧ ((∃ q, q ∈ qs ∧ is_Some (answers !! id q)) → t0 < t).
Proof.
  revert t0 m0. induction qs as [| q qs IH]; intros t0 m0 Hw Hv Hle; simpl.
  - exists t0, m0. repeat split; try lra; try assumption.
    intros (q & Hq & _). apply elem_of_nil in Hq. contradiction.
  - apply Forall_cons in Hw as [Hwq Hw].
    assert (Hv' : ∀ q' a, q' ∈ qs → answers !! id q' = Some a →
                          RiskAssessmentState.validAnswer q' a)
      by (intros q' a Hq'; apply Hv; right; exact Hq').
    destruct (answers !! id q) as [a |] eqn:Ha.
    + destruct (contribution_bounds q a Hwq (Hv q a ltac:(left) Ha))
        as (c & Hc & Hc1 & Hc2).
      rewrite Hc. simpl.
      destruct (IH (t0 + c) (m0 + inject_Z (optionCount q) * weight q) Hw Hv'
                  ltac:(lra)) as (t & m & Hf & Ht & Htm & _).
      exists t, m. repeat split; try assumption; try lra; try (intros _; lra).
    + destruct (IH t0 m0 Hw Hv' Hle) as (t & m & Hf & Ht & Htm & Hpos).
      exists t, m. repeat split; try assumption.
      intros (q' & [-> | Hq']%elem_of_cons & Hans).
      * rewrite Ha in Hans. destruct Hans; discriminate.
      * apply Hpos. eauto.
Qed.

Lemma riskQuestions_weights : Forall (λ q, 0 < weight q) riskQuestions.
Proof. repeat constructor. Qed.

Lemma valid_answers_scores (answers : gmap string Answer) :
  (∀ q a, q ∈ riskQuestions → answers !! id q = Some a →
          RiskAssessmentState.validAnswer q a) →
  (∃ q, q ∈ riskQuestions ∧ is_Some (answers !! id q)) →
  ∃ totalScore maxScore,
    scores riskQuestions answers = Some (totalScore, maxScore)
    ∧ 0 < totalScore ∧ totalScore <= maxScore
    ∧ riskScoreOf totalScore maxScore = Finite (totalScore / maxScore * 100)
    ∧ 0 < totalScore / maxScore * 100 ∧ totalScore / maxScore * 100 <= 100
    ∧ calculateRiskProfile answers
      = Some (if Qle_bool 30 (totalScore / maxScore * 100)
              then if Qle_bool 70 (totalScore / maxScore * 100)
                   then aggressive else moderate
              else conservative).
Proof.
  intros Hv Hsome.
  destruct (scores_bounds answers riskQuestions 0 0 riskQuestions_weights Hv
              ltac:(lra)) as (t & m & Hf & _ & Htm & Hpos).
  specialize (Hpos Hsome). exists t, m.
  assert (Hm : 0 < m) by lra.
  assert (Hscore : riskScoreOf t m = Finite (t / m * 100)).
  { unfold riskScoreOf. destruct (Qeq_bool m 0) eqn:Hz; [| reflexivity].
    apply Qeq_bool_iff in Hz. lra. }
  assert (Hratio : 0 < t / m ∧ t / m <= 1).
  { split.
    - apply Qlt_shift_div_l; lra.
    - apply Qle_shift_div_r; lra. }
  split; [exact Hf |]. split; [exact Hpos |]. split; [exact Htm |].
  split; [exact Hscore |]. split; [lra |]. split; [lra |].
  unfold calculateRiskProfile. unfold scores in Hf. unfold scores. rewrite Hf. simpl.
  rewrite Hscore. simpl.
  destruct (Qle_bool 30 _), (Qle_bool 70 _); reflexivity.
Qed.

(** X24: when every recorded answer is one the buttons can produce and at
    least one question is answered, the scores satisfy 0 < totalScore <=
    maxScore, so the risk score is a finite number in (0, 100] (never NaN or
    infinite) and calculateRiskProfile classifies that number. *)
Theorem valid_answers_score_bounds (answers : gmap string Answer) :
  (∀ q a, q ∈ riskQuestions → answers !! id q = Some a →
          RiskAssessmentState.validAnswer q a) →
  (∃ q, q ∈ riskQuestions ∧ is_Some (answers !! id q)) →
  ∃ totalScore maxScore,
    scores riskQuestions answers = Some (totalScore, maxScore)
    ∧ 0 < totalScore ∧ totalScore <= maxScore
    ∧ riskScoreOf totalScore maxScore = Finite (totalScore / maxScore * 100)
    ∧ 0 < totalScore / maxScore * 100 ∧ totalScore / maxScore * 100 <= 100
    ∧ calculateRiskProfile answers
      = Some (if Qle_bool 30 (totalScore / maxScore * 100)
              then if Qle_bool 70 (totalScore / maxScore * 100)
                   then aggressive else moderate
              else conservative).
Proof. exact (valid_answers_scores answers). Qed.

Lemma valid_answers_score_bounds_witness :
  (∀ q a, q ∈ riskQuestions → Sample.answersFirst !! id q = Some a →
          RiskAssessmentState.validAnswer q a)
  ∧ (∃ q, q ∈ riskQuestions ∧ is_Some (Sample.answersFirst !! id q))
  ∧ ∃ totalScore maxScore,
      scores riskQuestions Sample.answersFirst = Some (totalScore, maxScore)
      ∧ 0 < totalScore ∧ totalScore <= maxScore.
Proof.
  assert (H1 : ∀ q a, q ∈ riskQuestions → Sample.answersFirst !! id q = Some a →
                      RiskAssessmentState.validAnswer q a).
  { intros q a Hq. unfold riskQuestions in Hq.
    repeat (apply elem_of_cons in Hq as [-> | Hq]);
      [| | | | | | apply elem_of_nil in Hq; contradiction];
      vm_compute; intros Ha; try discriminate Ha; injection Ha as <-.
    - eexists _, _. split; [reflexivity |]. split; [reflexivity |].
      apply list_elem_of_In. simpl. tauto.
    - eexists _, _. split; [reflexivity |]. split; [reflexivity |].
      apply list_elem_of_In. simpl. tauto. }
  assert (H2 : ∃ q, q ∈ riskQuestions ∧ is_Some (Sample.answersFirst !! id q)).
  { exists Sample.question3. split; [| vm_compute; eexists; reflexivity].
    apply list_elem_of_In. simpl. tauto. }
  split; [exact H1 |]. split; [exact H2 |].
  destruct (valid_answers_score_bounds Sample.answersFirst H1 H2)
    as (t & m & Hs & Ht & Htm & _).
  exists t, m. auto.
Defined.

(** X25: when none of the questions has an answer, both running scores are
    0, the risk score 0/0 is NaN, both comparisons fail and the profile is
    aggressive. *)
Theorem no_answers_aggressive (answers : gmap string Answer) :
  (∀ q, q ∈ riskQuestions → answers !! id q = None) →
  scores riskQuestions answers = Some (0, 0)
  ∧ riskScoreOf 0 0 = NaN
  ∧ calculateRiskProfile answers = Some aggressive.
Proof.
  intros Hnone.
  assert (Hs : ∀ qs acc, (∀ q, q ∈ qs → answers !! id q = None) →
                         foldl (scoreStep answers) (Some acc) qs = Some acc).
  { induction qs as [| q qs IH]; intros acc Hq; [reflexivity |].
    simpl. destruct acc as [t m]. rewrite (Hq q ltac:(left)).
    apply IH. intros q' Hq'. apply Hq. right. exact Hq'. }
  assert (Hsc : scores riskQuestions answers = Some (0, 0))
    by (apply Hs; exact Hnone).
  split; [exact Hsc |]. split; [reflexivity |].
  unfold calculateRiskProfile. rewrite Hsc. reflexivity.
Qed.

Lemma no_answers_aggressive_witness :
  (∀ q, q ∈ riskQuestions → (∅ : gmap string Answer) !! id q = None)
  ∧ calculateRiskProfile ∅ = Some aggressive.
Proof.
  assert (H : ∀ q, q ∈ riskQuestions → (∅ : gmap string Answer) !! id q = None)
    by (intros q _; apply lookup_empty).
  split; [exact H |].
  exact (proj2 (proj2 (no_answers_aggressive ∅ H))).
Defined.

End Questionnaire.

Section Session.

Import RiskAssessment RiskAssessmentState.

Lemma riskQuestions_id_inj (q1 q2 : RiskQuestion) :
  q1 ∈ riskQuestions → q2 ∈ riskQuestions → id q1 = id q2 → q1 = q2.
Proof.
  unfold riskQuestions. intros H1 H2.
  repeat (apply elem_of_cons in H1 as [-> | H1]);
    try (apply elem_of_nil in H1; contradiction);
    repeat (apply elem_of_cons in H2 as [-> | H2]);
    try (apply elem_of_nil in H2; contradiction);
    simpl; intros Hid; try reflexivity; discriminate Hid.
Qed.

Lemma riskQuestions_scale (q : RiskQuestion) :
  q ∈ riskQuestions → type q = scale → options q = None.
Proof.
  unfold riskQuestions. intros H.
  repeat (apply elem_of_cons in H as [-> | H]);
    try (apply elem_of_nil in H; contradiction);
    simpl; intros Hty; try reflexivity; discriminate Hty.
Qed.

Lemma invariant_initial : invariant initial.
Proof.
  unfold invariant, initial. simpl. repeat split.
  - lia.
  - intros q a _ Ha. rewrite lookup_empty in Ha. discriminate.
  - intros i q Hi. lia.
  - discriminate.
  - discriminate.
  - discriminate.
Qed.

Lemma invariant_handleAnswer (s : State) (q : RiskQuestion) (a : Answer) :
  invariant s → isCompleted s = false →
  q ∈ riskQuestions → validAnswer q a →
  invariant (handleAnswer (id q) a s).
Proof.
  intros (Hcur & Hvalid & Hdone & _) Hnot Hq Ha.
  unfold invariant, handleAnswer. simpl. repeat split.
  - exact Hcur.
  - intros q' a' Hq' [[Hid <-] | [_ Hl]]%lookup_insert_Some; [| eauto].
    rewrite <- (riskQuestions_id_inj q q' Hq Hq' Hid). exact Ha.
  - intros i q' Hi Hl. rewrite lookup_insert_is_Some.
    destruct (decide (id q = id q')); eauto.
  - congruence.
  - congruence.
  - congruence.
Qed.

Lemma click_invariant (c : Click) (s s' : State) :
  invariant s → click c s = Some s' → invariant s'.
Proof.
  intros Hinv. pose proof Hinv as (Hcur & Hvalid & Hdone & Hcompleted).
  change (length riskQuestions) with 6%nat in Hcur.
  unfold click.
  destruct (isCompleted s && bool_decide (is_Some (riskProfile s))) eqn:Hview.
  { destruct c; try discriminate. intros Hs. injection Hs as <-.
    exact invariant_initial. }
  assert (Hnot : isCompleted s = false).
  { destruct (isCompleted s) eqn:Hc; [| reflexivity].
    destruct (Hcompleted eq_refl) as (_ & _ & Hp).
    rewrite (bool_decide_eq_true_2 _ Hp) in Hview. discriminate. }
  destruct (riskQuestions !! currentQuestion s) as [qd |] eqn:Hqd; [| discriminate].
  assert (Hin : qd ∈ riskQuestions) by (eapply list_elem_of_lookup_2; exact Hqd).
  cbn -[Nat.leb Nat.eqb Nat.ltb handleNext handlePrevious]. destruct c.
  - (* an option button *)
    destruct (type qd) eqn:Hty; try discriminate.
    destruct (options qd) as [opts |] eqn:Hopt; [| discriminate].
    destruct (opts !! index) as [o |] eqn:Ho; [| discriminate].
    simpl. intros [= <-]. apply invariant_handleAnswer; try assumption.
    unfold validAnswer. rewrite Hty. exists opts, o.
    repeat split; [exact Hopt |]. eapply list_elem_of_lookup_2. exact Ho.
  - (* a scale button *)
    destruct (type qd) eqn:Hty; try discriminate.
    destruct ((1 <=? value)%nat && (value <=? 10)%nat) eqn:Hrange; [| discriminate].
    intros [= <-]. apply invariant_handleAnswer; try assumption.
    unfold validAnswer. rewrite Hty.
    split; [apply riskQuestions_scale; assumption |].
    exists value. split; [reflexivity |].
    apply andb_prop in Hrange as [H1 H2].
    apply Nat.leb_le in H1, H2. lia.
  - (* Previous *)
    destruct (Nat.eqb_spec (currentQuestion s) 0); [discriminate |].
    intros [= <-]. unfold handlePrevious.
    destruct (Nat.ltb_spec 0 (currentQuestion s)); [| lia].
    unfold invariant. simpl. repeat split; try congruence.
    + lia.
    + exact Hvalid.
    + intros i q Hi. apply Hdone. lia.
  - (* Next *)
    destruct (answers s !! id qd) as [a |] eqn:Ha; [| discriminate].
    unfold handleNext.
    destruct (Nat.ltb_spec (currentQuestion s) (length riskQuestions - 1)) as [Hlt | Hge].
    + intros [= <-]. unfold invariant. simpl. repeat split; try congruence.
      * simpl in Hlt. simpl. lia.
      * exact Hvalid.
      * intros i q Hi Hl.
        destruct (decide (i = currentQuestion s)) as [-> |];
          [| apply (Hdone i q); [lia | exact Hl]].
        rewrite Hqd in Hl. injection Hl as <-. rewrite Ha. eauto.
    + destruct (calculateRiskProfile (answers s)) as [profile |] eqn:Hp;
        [| discriminate].
      simpl. intros [= <-]. unfold invariant. simpl. repeat split.
      * exact Hcur.
      * exact Hvalid.
      * exact Hdone.
      * intros q Hq. apply list_elem_of_lookup_1 in Hq as [i Hi].
        pose proof (lookup_lt_Some _ _ _ Hi) as Hlen.
        destruct (decide (i = currentQuestion s)) as [-> |].
        -- rewrite Hqd in Hi. injection Hi as <-. rewrite Ha. eauto.
        -- apply (Hdone i q); [lia | exact Hi].
      * symmetry. exact Hp.
      * eauto.
  - discriminate.
Qed.

Lemma session_reaches_invariant (clicks : list Click) : invariant (session clicks).
Proof.
  unfold session.
  assert (H : ∀ s, invariant s →
                   invariant (foldl (λ s c, default s (click c s)) s clicks)).
  { induction clicks as [| c clicks IH]; intros s Hs; simpl; [exact Hs |].
    apply IH. destruct (click c s) as [s' |] eqn:Hc; simpl; [| exact Hs].
    exact (click_invariant c s s' Hs Hc). }
  apply H, invariant_initial.
Qed.

(** X26: whatever the user clicks, the questionnaire stays on one of the
    six questions (so the current question is always defined and the
    progress bar is in (0, 100]), records only answers its buttons offer, has
    an answer for every question before the current one, and, once
    completed, has an answer for every question and shows the profile that
    calculateRiskProfile gives for those answers. *)
Theorem session_invariant (clicks : list Click) :
  let s := session clicks in
  (currentQuestion s < length riskQuestions)%nat
  ∧ is_Some (riskQuestions !! currentQuestion s)
  ∧ 0 < progress s ∧ progress s <= 100
  ∧ (∀ q a, q ∈ riskQuestions → answers s !! id q = Some a → validAnswer q a)
  ∧ (∀ i q, (i < currentQuestion s)%nat → riskQuestions !! i = Some q →
            is_Some (answers s !! id q))
  ∧ (isCompleted s = true →
     (∀ q, q ∈ riskQuestions → is_Some (answers s !! id q))
     ∧ riskProfile s = calculateRiskProfile (answers s)
     ∧ is_Some (riskProfile s)).
Proof.
  intros s. destruct (session_reaches_invariant clicks) as (Hcur & Hvalid & Hdone & Hc).
  fold s in Hcur, Hvalid, Hdone, Hc.
  split; [exact Hcur |].
  split; [apply lookup_lt_is_Some; exact Hcur |].
  split; [| split; [| auto]].
  - unfold progress. simpl in Hcur.
    destruct (currentQuestion s) as [|[|[|[|[|[|]]]]]]; try lia; reflexivity.
  - unfold progress. simpl in Hcur.
    destruct (currentQuestion s) as [|[|[|[|[|[|]]]]]]; try lia;
      vm_compute; discriminate.
Qed.

(** X27: a completed questionnaire always shows a profile derived from a
    finite risk score in (0, 100]: the NaN of an empty answer sheet cannot be
    reached through the buttons. *)
Theorem completed_session_score (clicks : list Click) :
  isCompleted (session clicks) = true →
  ∃ totalScore maxScore,
    scores riskQuestions (answers (session clicks)) = Some (totalScore, maxScore)
    ∧ riskScoreOf totalScore maxScore = Finite (totalScore / maxScore * 100)
    ∧ 0 < totalScore / maxScore * 100 ∧ totalScore / maxScore * 100 <= 100
    ∧ riskProfile (session clicks)
      = Some (if Qle_bool 30 (totalScore / maxScore * 100)
              then if Qle_bool 70 (totalScore / maxScore * 100)
                   then aggressive else moderate
              else conservative).
Proof.
  intros Hc.
  destruct (session_reaches_invariant clicks) as (_ & Hvalid & _ & Hcompleted).
  destruct (Hcompleted Hc) as (Hall & Hprofile & _).
  assert (Hsome : ∃ q, q ∈ riskQuestions
                       ∧ is_Some (answers (session clicks) !! id q)).
  { exists Sample.question3.
    assert (Hq : Sample.question3 ∈ riskQuestions)
      by (apply list_elem_of_In; simpl; tauto).
    split; [exact Hq | apply Hall, Hq]. }
  destruct (valid_answers_scores _ Hvalid Hsome)
    as (t & m & Hs & _ & _ & Hscore & Hlo & Hhi & Hcalc).
  exists t, m. rewrite Hprofile. auto 10.
Qed.

Lemma completed_session_score_witness :
  let clicks :=
    [ClickOption 1; ClickNext; ClickOption 4; ClickNext; ClickOption 2; ClickNext;
     ClickOption 0; ClickNext; ClickScale 7; ClickNext; ClickOption 3; ClickNext] in
  isCompleted (session clicks) = true
  ∧ riskProfile (session clicks) = Some aggressive
  ∧ ∃ totalScore maxScore,
      scores riskQuestions (answers (session clicks)) = Some (totalScore, maxScore)
      ∧ 0 < totalScore / maxScore * 100 ∧ totalScore / maxScore * 100 <= 100.
Proof.
  intros clicks.
  assert (H : isCompleted (session clicks) = true) by (vm_compute; reflexivity).
  split; [exact H |]. split; [vm_compute; reflexivity |].
  destruct (completed_session_score clicks H) as (t & m & Hs & _ & Hlo & Hhi & _).
  exists t, m. auto.
Defined.

End Session.
